(** * mapserver: coordinate classification, map dispatch and the shared map slot

    A shallow embedding of [main.go] (package [main] of kurankat/mapserver):
    the form reader [newMapData], the classifier and dispatcher [mapSVG], and
    the two handlers [mapDisplay] and [mapAsFile] that share one [svgMap]
    value.  Go strings are byte strings and are modelled as [string] (a list
    of 8-bit [ascii] characters).  The rendering engine
    (github.com/kurankat/tasmapper) and the Unicode tables of the Go library
    are outside the repository and are taken as parameters. *)

From Stdlib Require Import List String Ascii Bool Arith NArith Lia.
Import ListNotations.
Open Scope string_scope.

Set Implicit Arguments.

(** ** Package [strings] *)

Module Strings.

(** The parts of the library that consult Unicode tables: the rune-aware
    trimming that [TrimSpace] falls back to, and the rune-wise lower-casing
    that [ToLower] falls back to, both reached only from a byte [>= 0x80]. *)
Record Unicode : Type := {
  TrimFunc_IsSpace : string -> string;
  TrimRightFunc_IsSpace : string -> string;
  Map_ToLower : string -> string
}.

(** [c >= utf8.RuneSelf] *)
Definition nonASCII (c : ascii) : bool := (128 <=? N_of_ascii c)%N.

(** [asciiSpace[c] == 1]: tab, line feed, vertical tab, form feed, carriage
    return and space. *)
Definition asciiSpace (c : ascii) : bool :=
  let n := N_of_ascii c in
  ((9 <=? n) && (n <=? 13) || (n =? 32))%N.

Definition str (l : list ascii) : string := string_of_list_ascii l.
Definition chars (s : string) : list ascii := list_ascii_of_string s.

(** Second loop of [TrimSpace]: [rs] is [s[start:stop]] reversed, so its head
    is [s[stop-1]]. *)
Fixpoint TrimSpace_stop (U : Unicode) (rs : list ascii) : string :=
  match rs with
  | [] => ""
  | c :: rs' =>
      if nonASCII c then TrimRightFunc_IsSpace U (str (rev rs))
      else if asciiSpace c then TrimSpace_stop U rs'
      else str (rev rs)
  end.

(** First loop of [TrimSpace], followed by the second on [s[start:]]. *)
Fixpoint TrimSpace (U : Unicode) (s : string) : string :=
  match s with
  | "" => ""
  | String c s' =>
      if nonASCII c then TrimFunc_IsSpace U s
      else if asciiSpace c then TrimSpace U s'
      else TrimSpace_stop U (rev (chars s))
  end.

(** [strings.ReplaceAll(s, old, new)] for a one-byte [old]; both call sites
    pass [" "]. *)
Fixpoint ReplaceAll (s : string) (old : ascii) (new : string) : string :=
  match s with
  | "" => ""
  | String c s' =>
      (if Ascii.eqb c old then new else String c "") ++ ReplaceAll s' old new
  end.

(** [strings.Split(s, sep)] for a one-byte [sep]: the pieces between the
    separators, never an empty slice. *)
Fixpoint Split (s : string) (sep : ascii) : list string :=
  match s with
  | "" => [""]
  | String c s' =>
      if Ascii.eqb c sep then "" :: Split s' sep
      else match Split s' sep with
           | piece :: rest => String c piece :: rest
           | [] => [String c ""]
           end
  end.

(** ['A' <= c && c <= 'Z'] then [c += 'a' - 'A'] *)
Definition lowerByte (c : ascii) : ascii :=
  let n := N_of_ascii c in
  if ((65 <=? n) && (n <=? 90))%N then ascii_of_N (n + 32) else c.

Fixpoint mapBytes (f : ascii -> ascii) (s : string) : string :=
  match s with
  | "" => ""
  | String c s' => String (f c) (mapBytes f s')
  end.

Fixpoint isASCII (s : string) : bool :=
  match s with
  | "" => true
  | String c s' => negb (nonASCII c) && isASCII s'
  end.

(** [strings.ToLower]: byte-wise on an ASCII-only string, rune-wise
    otherwise. *)
Definition ToLower (U : Unicode) (s : string) : string :=
  if isASCII s then mapBytes lowerByte s else Map_ToLower U s.

End Strings.

(** ** Package [regexp], as far as the two patterns need it *)

Module Regexp.

Local Open Scope list_scope.

(** Syntax trees of [regexp/syntax], with a repetition [x{n,m}] already
    expanded the way [Simplify] does it. *)
Inductive Regexp : Type :=
| OpEmptyMatch
| OpLiteral (c : ascii)
| OpCharClass (lo hi : ascii)
| OpBeginText
| OpEndText
| OpConcat (r1 r2 : Regexp)
| OpQuest (r : Regexp).

Declare Scope regexp_scope.
Delimit Scope regexp_scope with re.
Bind Scope regexp_scope with Regexp.
Infix "+++" := OpConcat (at level 60, right associativity) : regexp_scope.

Fixpoint times (n : nat) (r : Regexp) : Regexp :=
  match n with
  | O => OpEmptyMatch
  | S n' => OpConcat r (times n' r)
  end.

Fixpoint upto (m : nat) (r : Regexp) : Regexp :=
  match m with
  | O => OpEmptyMatch
  | S m' => OpQuest (OpConcat r (upto m' r))
  end.

(** [x{min,max}] is [min] copies of [x] followed by [x(x(x)?)?] nested
    [max - min] deep. *)
Definition OpRepeat (r : Regexp) (min max : nat) : Regexp :=
  OpConcat (times min r) (upto (max - min) r).

Definition inClass (lo hi c : ascii) : bool :=
  ((N_of_ascii lo <=? N_of_ascii c) && (N_of_ascii c <=? N_of_ascii hi))%N.

(** Backtracking matcher.  [bot] says whether the current position is the
    beginning of the text, [s] is the text from the current position on, and
    [k] is what has to match after [r]. *)
Fixpoint run (r : Regexp) (bot : bool) (s : list ascii)
    (k : bool -> list ascii -> bool) : bool :=
  match r with
  | OpEmptyMatch => k bot s
  | OpLiteral c =>
      match s with
      | x :: s' => Ascii.eqb x c && k false s'
      | [] => false
      end
  | OpCharClass lo hi =>
      match s with
      | x :: s' => inClass lo hi x && k false s'
      | [] => false
      end
  | OpBeginText => bot && k bot s
  | OpEndText =>
      match s with
      | [] => k bot s
      | _ :: _ => false
      end
  | OpConcat r1 r2 => run r1 bot s (fun bot' s' => run r2 bot' s' k)
  | OpQuest r1 => run r1 bot s k || k bot s
  end.

(** An unanchored search: a match may start at any position. *)
Fixpoint search (r : Regexp) (bot : bool) (s : list ascii) : bool :=
  run r bot s (fun _ _ => true)
  || match s with
     | [] => false
     | _ :: s' => search r false s'
     end.

(** [regexp.MatchString]: whether the text contains any match. *)
Definition MatchString (r : Regexp) (s : string) : bool :=
  search r true (list_ascii_of_string s).

(** What a syntax tree denotes: [den r bot w rest] says that [r] matches the
    word [w] when the position before [w] is the beginning of the text iff
    [bot], and [rest] is the text after [w]. *)
Definition isnil (w : list ascii) : bool :=
  match w with [] => true | _ :: _ => false end.

Fixpoint den (r : Regexp) (bot : bool) (w rest : list ascii) : Prop :=
  match r with
  | OpEmptyMatch => w = []
  | OpLiteral c => w = [c]
  | OpCharClass lo hi => exists x, w = [x] /\ inClass lo hi x = true
  | OpBeginText => w = [] /\ bot = true
  | OpEndText => w = [] /\ rest = []
  | OpConcat r1 r2 =>
      exists w1 w2, w = w1 ++ w2 /\ den r1 bot w1 (w2 ++ rest)
                    /\ den r2 (bot && isnil w1) w2 rest
  | OpQuest r1 => w = [] \/ den r1 bot w rest
  end.

End Regexp.

(** ** The rendering engine, package [mapper] (github.com/kurankat/tasmapper) *)

Module Mapper.

(** A [bytes.Buffer] by its contents. *)
Definition Buffer : Type := string.

(** The engine's record list, its two constructors (each given the raw
    text behind a [strings.NewReader] and the taxon name) and its four
    rendering entry points (each given the record list and the buffer it
    writes to; the result is the buffer afterwards). *)
Record Engine : Type := {
  RecordList : Type;
  new_RecordList : RecordList;
  NewVoucherRecordList : string -> string -> RecordList;
  NewRecordList : string -> string -> RecordList;
  VoucherMap : RecordList -> Buffer -> Buffer;
  GridMap : RecordList -> Buffer -> Buffer;
  ExactMap : RecordList -> Buffer -> Buffer;
  WebMap : RecordList -> Buffer -> Buffer
}.

Inductive constructor : Type := newVoucherRecordList | newRecordList.
Inductive entry : Type := voucherMap | gridMap | exactMap | webMap.

End Mapper.

(** ** What a handler does besides returning: log lines and engine calls *)

Module Effects.

Import Mapper.

Inductive event : Type :=
| ErrorLog (line : string)
| Built (c : constructor) (rawCoords taxonName : string)
| Rendered (e : entry).

(** A computation returns a value and the events it caused, in order. *)
Definition M (A : Type) : Type := (A * list event)%type.

Definition ret {A : Type} (a : A) : M A := (a, []).

Definition bind {A B : Type} (m : M A) (f : A -> M B) : M B :=
  let (a, t1) := m in
  let (b, t2) := f a in
  (b, (t1 ++ t2)%list).

Definition emit (e : event) : M unit := (tt, [e]).

Definition value {A : Type} (m : M A) : A := fst m.
Definition trace {A : Type} (m : M A) : list event := snd m.

Declare Scope effects_scope.
Delimit Scope effects_scope with eff.
Notation "x <- m ;; k" := (bind m (fun x => k))
  (at level 61, m at next level, right associativity) : effects_scope.
Notation "m ;; k" := (bind m (fun _ => k))
  (at level 61, right associativity) : effects_scope.

(** Line feed, and [fmt.Sprintln] of string operands: joined by spaces and
    ended by a line feed. *)
Definition LF : ascii := "010"%char.

Fixpoint Sprintln (operands : list string) : string :=
  match operands with
  | [] => String LF ""
  | [a] => a ++ String LF ""
  | a :: rest => a ++ " " ++ Sprintln rest
  end.

(** [errorLog.Println]: the logger has no prefix and no flags. *)
Definition errorLog_Println (operands : list string) : M unit :=
  emit (ErrorLog (Sprintln operands)).

End Effects.

(** ** Package [main]: main.go *)

Module Main.

Import Strings Regexp Mapper Effects.
Local Open Scope effects_scope.

(** An [http.Request] after [ParseForm]: its method and its form values. *)
Record Request : Type := {
  Method : string;
  Form : list (string * list string)
}.

(** [r.FormValue(key)]: the first value of [key], or the empty string. *)
Fixpoint Values_Get (form : list (string * list string)) (key : string)
    : string :=
  match form with
  | [] => ""
  | (k, vs) :: form' =>
      if String.eqb k key then hd "" vs else Values_Get form' key
  end.

Definition FormValue (r : Request) (key : string) : string :=
  Values_Get (Form r) key.

(** The main structure to hold map-related data. *)
Record mapData : Type := {
  TaxonName : string;
  MapType : string;
  RawCoords : string;
  SVGmap : string
}.

(** [svgMap] contains data specific to the generated SVG map to be served.
    Its third field is called [svgMap] too in the source. *)
Record svgMap : Type := {
  mapName : string;
  mapType : string;
  svgMap' : string
}.

(** [new(svgMap)] in [main]: every field is the empty string. *)
Definition new_svgMap : svgMap :=
  {| mapName := ""; mapType := ""; svgMap' := "" |}.

Definition newMapData (U : Unicode) (r : Request) : mapData :=
  {| TaxonName := FormValue r "taxon";
     MapType := FormValue r "maptype";
     RawCoords := TrimSpace U (ReplaceAll (FormValue r "coordinates") " " "");
     SVGmap := "" |}.

Definition digit : Regexp := OpCharClass "0" "9".

(** [(\.\d{0,10})?] *)
Definition fraction : Regexp :=
  OpQuest (OpLiteral "." +++ OpRepeat digit 0 10).

(** [^\-?\d{2}(\.\d{0,10})?,\d{3}(\.\d{0,10})?,[01]$] *)
Definition voucherRe : Regexp :=
  (OpBeginText +++ OpQuest (OpLiteral "-") +++ OpRepeat digit 2 2 +++ fraction
   +++ OpLiteral "," +++ OpRepeat digit 3 3 +++ fraction
   +++ OpLiteral "," +++ OpCharClass "0" "1" +++ OpEndText)%re.

(** [^\-?\d{2}(\.\d{0,10})?,\d{3}(\.\d{0,10})?$] *)
Definition noVoucherRe : Regexp :=
  (OpBeginText +++ OpQuest (OpLiteral "-") +++ OpRepeat digit 2 2 +++ fraction
   +++ OpLiteral "," +++ OpRepeat digit 3 3 +++ fraction +++ OpEndText)%re.

(** [strings.TrimSpace(strings.Split(data.RawCoords, "\n")[0])] *)
Definition firstRecord (U : Unicode) (data : mapData) : string :=
  TrimSpace U (nth 0 (Split (RawCoords data) LF) "").

Definition voucherPattern (firstRecord : string) : bool :=
  MatchString voucherRe firstRecord.

Definition noVoucherPattern (firstRecord : string) : bool :=
  MatchString noVoucherRe firstRecord.

(** The outcome of the two tests as [mapSVG] branches on them: the first
    branch is taken when [voucherPattern] holds, the second when it does not
    and [noVoucherPattern] holds, the last otherwise. *)
Inductive CoordinateFormat : Type := NoVoucher | Voucher | Invalid.

Definition classify (firstRecord : string) : CoordinateFormat :=
  if voucherPattern firstRecord then Voucher
  else if noVoucherPattern firstRecord then NoVoucher
  else Invalid.

(** Calls into the engine leave an event behind. *)
Definition build (E : Engine) (c : constructor) (rawCoords taxonName : string)
    : M (RecordList E) :=
  emit (Built c rawCoords taxonName) ;;
  ret (match c with
       | newVoucherRecordList => NewVoucherRecordList E rawCoords taxonName
       | newRecordList => NewRecordList E rawCoords taxonName
       end).

Definition render (E : Engine) (e : entry) (rl : RecordList E)
    (mapBuffer : Buffer) : M Buffer :=
  emit (Rendered e) ;;
  ret (match e with
       | voucherMap => VoucherMap E rl mapBuffer
       | gridMap => GridMap E rl mapBuffer
       | exactMap => ExactMap E rl mapBuffer
       | webMap => WebMap E rl mapBuffer
       end).

(** The [switch data.MapType] of [mapSVG]; a style that is none of the
    three cases leaves the buffer as it is. *)
Definition drawMap (E : Engine) (voucherPattern : bool) (MapType : string)
    (rl : RecordList E) (mapBuffer : Buffer) : M Buffer :=
  if String.eqb MapType "grid" then
    if voucherPattern then render E voucherMap rl mapBuffer
    else render E gridMap rl mapBuffer
  else if String.eqb MapType "plain" then render E exactMap rl mapBuffer
  else if String.eqb MapType "web" then render E webMap rl mapBuffer
  else ret mapBuffer.

(** [mapSVG] creates an SVG map with the data provided.  The first
    computation is the [if]/[else if]/[else] chain, [None] standing for the
    [return] of its last branch. *)
Definition mapSVG (U : Unicode) (E : Engine) (data : mapData) : M string :=
  let rl := new_RecordList E in
  let firstRecord := firstRecord U data in
  let mapBuffer : Buffer := "" in
  let voucherPattern := voucherPattern firstRecord in
  let noVoucherPattern := noVoucherPattern firstRecord in
  built <- (if voucherPattern then
              rl <- build E newVoucherRecordList (RawCoords data)
                      (TaxonName data) ;;
              ret (Some rl)
            else if noVoucherPattern then
              rl <- build E newRecordList (RawCoords data) (TaxonName data) ;;
              ret (Some rl)
            else
              errorLog_Println
                ["Coordinates contain an error in the first line and cannot be interpreted";
                 firstRecord] ;;
              ret None) ;;
  match built with
  | None => ret "I can't interpret these coordinates"
  | Some rl =>
      mapBuffer <- drawMap E voucherPattern (MapType data) rl mapBuffer ;;
      ret mapBuffer
  end.

(** What a handler hands to its [http.ResponseWriter]: the header fields it
    set and the body it printed. *)
Record Response : Type := {
  Header : list (string * string);
  Body : string
}.

(** [mapAsFile] will serve the SVG map as a file rather than inline, if a
    map file is in memory.  It only reads the slot. *)
Definition mapAsFile (svm : svgMap) (r : Request) : M Response :=
  if String.eqb (svgMap' svm) "" then
    errorLog_Println
      ["Attempt to access map from memory before a map is generated"] ;;
    ret {| Header := []; Body := "There is no map in memory" |}
  else
    let fileName := "attachment; filename=" ++ mapName svm in
    ret {| Header := [("Content-Type", "image/svg+xml");
                      ("Content-Disposition", fileName)];
           Body := svgMap' svm |}.

(** What [mapDisplay] answers with: the page assembled by the templates from
    the title and the data, or a redirection. *)
Inductive Shown : Type :=
| Page (pageTitle : string) (data : mapData)
| Redirect (url : string) (code : nat).

Definition set_mapType (v : string) (svm : svgMap) : svgMap :=
  {| mapName := mapName svm; mapType := v; svgMap' := svgMap' svm |}.
Definition set_mapName (v : string) (svm : svgMap) : svgMap :=
  {| mapName := v; mapType := mapType svm; svgMap' := svgMap' svm |}.
Definition set_svgMap (v : string) (svm : svgMap) : svgMap :=
  {| mapName := mapName svm; mapType := mapType svm; svgMap' := v |}.
Definition set_SVGmap (v : string) (data : mapData) : mapData :=
  {| TaxonName := TaxonName data; MapType := MapType data;
     RawCoords := RawCoords data; SVGmap := v |}.

(** [mapDisplay] handles displaying a page with results; the slot [svm] is
    threaded through, and the result carries its new value. *)
Definition mapDisplay (U : Unicode) (E : Engine) (svm : svgMap) (r : Request)
    : M (svgMap * Shown) :=
  if String.eqb (Method r) "POST" then
    let data := newMapData U r in
    let pageTitle := "Preview map for " ++ TaxonName data in
    let svm := set_mapType (MapType data) svm in
    let svm := set_mapName
                 (ReplaceAll (ToLower U (TaxonName data)) " " "-"
                  ++ "." ++ mapType svm ++ ".svg") svm in
    body <- mapSVG U E data ;;
    let svm := set_svgMap body svm in
    let data := set_SVGmap (svgMap' svm) data in
    ret (svm, Page pageTitle data)
  else
    ret (svm, Redirect "/" 301).

(** The two routes of [main] that share the slot. *)
Inductive Route : Type :=
| map_ (r : Request)
| mapfile (r : Request).

Inductive Answer : Type :=
| Displayed (shown : Shown)
| Served (resp : Response).

Definition handle (U : Unicode) (E : Engine) (svm : svgMap) (q : Route)
    : M (svgMap * Answer) :=
  match q with
  | map_ r =>
      out <- mapDisplay U E svm r ;;
      ret (fst out, Displayed (snd out))
  | mapfile r =>
      resp <- mapAsFile svm r ;;
      ret (svm, Served resp)
  end.

(** Requests served one after the other, from the slot [svm] on. *)
Fixpoint serveAll (U : Unicode) (E : Engine) (svm : svgMap) (qs : list Route)
    : M (svgMap * list Answer) :=
  match qs with
  | [] => ret (svm, [])
  | q :: qs' =>
      out <- handle U E svm q ;;
      outs <- serveAll U E (fst out) qs' ;;
      ret (fst outs, snd out :: snd outs)
  end.

End Main.

(** ** The handlers as interleaved field accesses

    [net/http] runs every handler call in a goroutine of its own, and the
    source takes no lock around the slot.  A thread is a handler call between
    two accesses to a field of the shared [svgMap]; one step is one such
    access together with the local computation that follows it.  Log lines
    and engine events are left out here. *)

Module Interleaving.

Import Strings Mapper Effects Main.

Inductive thread : Type :=
| D_setType (data : mapData)            (* svm.mapType = data.MapType *)
| D_readType (data : mapData)           (* ... + svm.mapType + ... *)
| D_setName (data : mapData) (t : string) (* svm.mapName = ... *)
| D_setSvg (data : mapData)             (* svm.svgMap = mapSVG(data) *)
| D_readSvg (data : mapData)            (* data.SVGmap = svm.svgMap *)
| F_check                               (* if svm.svgMap == "" *)
| F_readName                            (* Sprintf(..., svm.mapName) *)
| F_print (fileName : string)           (* fmt.Fprint(w, svm.svgMap) *)
| Done (a : Answer).

(** A handler call up to its first access to the slot. *)
Definition spawn (U : Unicode) (q : Route) : thread :=
  match q with
  | map_ r =>
      if String.eqb (Method r) "POST" then D_setType (newMapData U r)
      else Done (Displayed (Redirect "/" 301))
  | mapfile _ => F_check
  end.

Definition step (U : Unicode) (E : Engine) (svm : svgMap) (t : thread)
    : svgMap * thread :=
  match t with
  | D_setType data => (set_mapType (MapType data) svm, D_readType data)
  | D_readType data => (svm, D_setName data (mapType svm))
  | D_setName data t =>
      (set_mapName (ReplaceAll (ToLower U (TaxonName data)) " " "-"
                    ++ "." ++ t ++ ".svg") svm,
       D_setSvg data)
  | D_setSvg data => (set_svgMap (value (mapSVG U E data)) svm, D_readSvg data)
  | D_readSvg data =>
      (svm, Done (Displayed (Page ("Preview map for " ++ TaxonName data)
                               (set_SVGmap (svgMap' svm) data))))
  | F_check =>
      if String.eqb (svgMap' svm) "" then
        (svm, Done (Served {| Header := [];
                              Body := "There is no map in memory" |}))
      else (svm, F_readName)
  | F_readName => (svm, F_print ("attachment; filename=" ++ mapName svm))
  | F_print fileName =>
      (svm, Done (Served {| Header := [("Content-Type", "image/svg+xml");
                                       ("Content-Disposition", fileName)];
                            Body := svgMap' svm |}))
  | Done a => (svm, Done a)
  end.

Fixpoint update {A : Type} (i : nat) (x : A) (l : list A) : list A :=
  match l, i with
  | [], _ => []
  | _ :: l', O => x :: l'
  | y :: l', S i' => y :: update i' x l'
  end.

(** A schedule names, step by step, the thread that moves. *)
Fixpoint exec (U : Unicode) (E : Engine) (sched : list nat) (svm : svgMap)
    (ts : list thread) : svgMap * list thread :=
  match sched with
  | [] => (svm, ts)
  | i :: sched' =>
      match nth_error ts i with
      | None => exec U E sched' svm ts
      | Some t =>
          let (svm', t') := step U E svm t in
          exec U E sched' svm' (update i t' ts)
      end
  end.

(** [n] steps of one thread with no other thread in between. *)
Fixpoint run_thread (U : Unicode) (E : Engine) (n : nat) (svm : svgMap)
    (t : thread) : svgMap * thread :=
  match n with
  | O => (svm, t)
  | S n' => let (svm', t') := step U E svm t in run_thread U E n' svm' t'
  end.

(** No handler needs more than five steps. *)
Definition steps : nat := 5.

(** The schedule that lets thread 0 finish, then thread 1, and so on. *)
Definition serial_from (first n : nat) : list nat :=
  flat_map (fun i => repeat i steps) (seq first n).

Definition serial (n : nat) : list nat := serial_from 0 n.

End Interleaving.

(** ** The words of the specification *)

Module Spec.

Import Strings Mapper Main.
Local Open Scope list_scope.

Definition word : Type := list ascii.
Definition lang : Type := word -> Prop.

(** The operators of the coordinate line grammar. *)
Definition lit (t : string) : lang := fun w => w = chars t.
Definition cat (G1 G2 : lang) : lang :=
  fun w => exists w1 w2, w = w1 ++ w2 /\ G1 w1 /\ G2 w2.
Definition opt (G : lang) : lang := fun w => w = [] \/ G w.
Definition alt (G1 G2 : lang) : lang := fun w => G1 w \/ G2 w.

Definition isDigit (c : ascii) : bool :=
  existsb (Ascii.eqb c) (chars "0123456789").

(** [digit{lo,hi}] *)
Definition digits (lo hi : nat) : lang :=
  fun w => lo <= List.length w <= hi /\ Forall (fun c => isDigit c = true) w.

(** [("." digit{0,10})?] *)
Definition fractional : lang := opt (cat (lit ".") (digits 0 10)).

(** [plain_line := "-"? digit{2} ("." digit{0,10})? "," digit{3}
    ("." digit{0,10})?] *)
Definition plain_words : lang :=
  cat (opt (lit "-")) (cat (digits 2 2) (cat fractional
    (cat (lit ",") (cat (digits 3 3) fractional)))).

(** [voucher_line := "-"? digit{2} ("." digit{0,10})? "," digit{3}
    ("." digit{0,10})? "," ("0"|"1")] *)
Definition voucher_words : lang :=
  cat (opt (lit "-")) (cat (digits 2 2) (cat fractional
    (cat (lit ",") (cat (digits 3 3) (cat fractional
      (cat (lit ",") (alt (lit "0") (lit "1")))))))).

Definition plain_line (s : string) : Prop := plain_words (chars s).
Definition voucher_line (s : string) : Prop := voucher_words (chars s).

(** The dispatch table of the specification: the entry point chosen for a
    format and a map style, [None] where no rendering takes place. *)
Definition selected (format : CoordinateFormat) (mapStyle : string)
    : option entry :=
  match format with
  | Invalid => None
  | Voucher =>
      if String.eqb mapStyle "grid" then Some voucherMap
      else if String.eqb mapStyle "plain" then Some exactMap
      else if String.eqb mapStyle "web" then Some webMap
      else None
  | NoVoucher =>
      if String.eqb mapStyle "grid" then Some gridMap
      else if String.eqb mapStyle "plain" then Some exactMap
      else if String.eqb mapStyle "web" then Some webMap
      else None
  end.

(** [fileName = lowercase(taxonName) with spaces→hyphens + "." + mapStyle +
    ".svg"] *)
Definition hyphen (c : ascii) : ascii :=
  if Ascii.eqb c " " then "-"%char else c.

Definition fileName (U : Unicode) (taxonName mapStyle : string) : string :=
  (mapBytes hyphen (ToLower U taxonName) ++ "." ++ mapStyle ++ ".svg")%string.

(** The two things a download can observe: the fixed answer for an absent
    map, and the map [m] served as an attachment. *)
Definition CacheAbsent : Response :=
  {| Header := []; Body := "There is no map in memory" |}.

Definition attachment (m : svgMap) : Response :=
  {| Header := [("Content-Type", "image/svg+xml");
                ("Content-Disposition",
                 ("attachment; filename=" ++ mapName m)%string)];
     Body := svgMap' m |}.

(** The complete map that a display request [r] stores. *)
Definition stored (U : Unicode) (E : Engine) (r : Request) : svgMap :=
  {| mapName := fileName U (FormValue r "taxon") (FormValue r "maptype");
     mapType := FormValue r "maptype";
     svgMap' := Effects.value (mapSVG U E (newMapData U r)) |}.

(** The display request whose store is the latest one in [qs]. *)
Fixpoint lastStore (qs : list Route) : option Request :=
  match qs with
  | [] => None
  | q :: qs' =>
      match lastStore qs' with
      | Some r => Some r
      | None =>
          match q with
          | map_ r => if String.eqb (Method r) "POST" then Some r else None
          | mapfile _ => None
          end
      end
  end.

End Spec.

(** ** A small engine to run the handlers with *)

Module Sample.

Import Mapper Main.

(** Record lists are the raw text they were built from; every entry point
    writes one fixed element to the buffer. *)
Definition engine : Engine :=
  {| RecordList := string;
     new_RecordList := "";
     NewVoucherRecordList := fun rawCoords _ => rawCoords;
     NewRecordList := fun rawCoords _ => rawCoords;
     VoucherMap := fun _ mapBuffer => mapBuffer ++ "<svg>voucher</svg>";
     GridMap := fun _ mapBuffer => mapBuffer ++ "<svg>grid</svg>";
     ExactMap := fun _ mapBuffer => mapBuffer ++ "<svg>plain</svg>";
     WebMap := fun _ mapBuffer => mapBuffer ++ "<svg>web</svg>" |}.

(** A form submission with the three fields, and a plain [GET]. *)
Definition post (taxon maptype coordinates : string) : Request :=
  {| Method := "POST";
     Form := [("taxon", [taxon]); ("maptype", [maptype]);
              ("coordinates", [coordinates])] |}.

Definition get : Request := {| Method := "GET"; Form := [] |}.

End Sample.

(** ** Notions the statements below are phrased with *)

Module Views.

Import Regexp Mapper Effects Main Spec.
Local Open Scope list_scope.

(** [r] matches the words of [G], whatever surrounds them. *)
Definition denotes (r : Regexp) (G : lang) : Prop :=
  forall bot w rest, den r bot w rest <-> G w.

(** [r] matches the words of [G], and only at the end of the text. *)
Definition denotes_to_end (r : Regexp) (G : lang) : Prop :=
  forall bot w rest, den r bot w rest <-> G w /\ rest = [].

Definition same (G1 G2 : lang) : Prop := forall w, G1 w <-> G2 w.

(** The number of commas in a word tells the two grammars apart. *)
Definition commas (w : word) : nat := count_occ ascii_dec w ","%char.

(** The line [mapSVG] logs for a first record it cannot interpret. *)
Definition invalidLine (firstRecord : string) : string :=
  ("Coordinates contain an error in the first line and cannot be interpreted "
   ++ firstRecord ++ String LF "")%string.

(** The rendering entry points a trace went through, in order. *)
Definition rendered_entries (t : list event) : list entry :=
  flat_map (fun e => match e with Rendered x => [x] | _ => [] end) t.

(** The constructors of the engine a trace went through, in order. *)
Definition built_lists (t : list event) : list constructor :=
  flat_map (fun e => match e with Built c _ _ => [c] | _ => [] end) t.

End Views.

(** ** Further notions: the alphabet of a record, trimming by hand *)

Module Shapes.

Import Strings Main.
Local Open Scope list_scope.

(** The bytes a first record that passes a test is made of, and those that
    may follow its first byte. *)
Definition coordChar (c : ascii) : bool :=
  existsb (Ascii.eqb c) (chars "-.,0123456789").

Definition restChar (c : ascii) : bool :=
  existsb (Ascii.eqb c) (chars ".,0123456789").

(** ['A' <= c && c <= 'Z'] *)
Definition isUpper (c : ascii) : bool :=
  ((65 <=? N_of_ascii c) && (N_of_ascii c <=? 90))%N.

Definition isLF (c : ascii) : bool := Ascii.eqb c Effects.LF.

Fixpoint dropWhile {A : Type} (p : A -> bool) (l : list A) : list A :=
  match l with
  | [] => []
  | x :: l' => if p x then dropWhile p l' else l
  end.

(** A text without its leading and trailing ASCII white space. *)
Definition trimmed (l : list ascii) : list ascii :=
  rev (dropWhile asciiSpace (rev (dropWhile asciiSpace l))).

Definition notBlank (c : ascii) : bool := negb (Ascii.eqb c " ").

End Shapes.

(** ** The pages: parsingError, the templates of mapDisplay, dataEntry, style *)

Module Pages.

Import Strings Mapper Effects Main.

(** What a template is executed with: [nil], a string, the map data, or the
    map of page texts. *)
Inductive arg : Type :=
| ArgNil
| ArgString (s : string)
| ArgData (data : mapData)
| ArgMap (m : list (string * string)).

(** A parsed template, by what [Execute] writes for an argument (the error
    [Execute] returns is dropped by every caller). *)
Definition Template : Type := arg -> string.

(** The template files as [html/template] and [text/template] parse them:
    [Some t] for [(t, nil)], [None] for [(nil, err)]. *)
Record Assets : Type := {
  htmt_ParseFiles : string -> option Template;
  text_ParseFiles : string -> option Template
}.

(** [err != nil] *)
Definition failed (t : option Template) : bool :=
  match t with Some _ => false | None => true end.

(** The [http.ResponseWriter] and the error log as a handler leaves them. *)
Record Writer : Type := {
  header : list (string * string);
  body : string;
  logged : list event
}.

(** A handler step: it returns ([Some]) or panics ([None]), and leaves a
    writer behind either way. *)
Definition H (A : Type) : Type := Writer -> option A * Writer.

Definition hret {A : Type} (a : A) : H A := fun w => (Some a, w).

Definition hbind {A B : Type} (m : H A) (f : A -> H B) : H B :=
  fun w =>
    match m w with
    | (Some a, w') => f a w'
    | (None, w') => (None, w')
    end.

Definition panic {A : Type} : H A := fun w => (None, w).

Declare Scope handler_scope.
Delimit Scope handler_scope with hdl.
Notation "m ;; k" := (hbind m (fun _ => k))
  (at level 61, right associativity) : handler_scope.
Local Open Scope handler_scope.

(** [fmt.Fprint(w, s)] *)
Definition Fprint (s : string) : H unit :=
  fun w => (Some tt, {| header := header w; body := body w ++ s;
                        logged := logged w |}).

(** [w.Header().Set(key, value)] for a key in canonical form: the value
    replaces what the key had. *)
Definition Header_Set (key value : string) : H unit :=
  fun w =>
    (Some tt,
     {| header := (key, value)
                  :: filter (fun kv => negb (String.eqb (fst kv) key))
                       (header w);
        body := body w; logged := logged w |}).

(** A log line ends in a line feed: one is added unless it is there. *)
Fixpoint endsWithLF (s : string) : bool :=
  match s with
  | "" => false
  | String c "" => Ascii.eqb c LF
  | String _ s' => endsWithLF s'
  end.

(** [errorLog.Printf] of an already formatted message. *)
Definition errorLog_Printf (message : string) : H unit :=
  fun w =>
    (Some tt,
     {| header := header w; body := body w;
        logged := (logged w
                   ++ [ErrorLog (if endsWithLF message then message
                                 else message ++ String LF "")])%list |}).

(** [t.Execute(w, data)]: a [nil] template is dereferenced, which panics. *)
Definition Execute (t : option Template) (a : arg) : H unit :=
  match t with
  | Some f => Fprint (f a)
  | None => panic
  end.

(** [parsingError] checks whether the templates can be parsed correctly;
    [err] stands for [err != nil]. *)
Definition parsingError (err : bool) (filename : string) : H unit :=
  if err then
    Fprint ("<h1>Map could not be rendered</h1><p>Error parsing template file: "
            ++ filename ++ "</p>") ;;
    errorLog_Printf ("Error parsing template file: " ++ filename)
  else hret tt.

(** The second half of the form-submission branch of [mapDisplay]: the four
    page templates, parsed and executed in succession. *)
Definition mapDisplay_page (A : Assets) (pageTitle : string) (data : mapData)
    : H unit :=
  let head := htmt_ParseFiles A "assets/head.html" in
  (if failed head then parsingError (failed head) "head.html"
   else Execute head (ArgString pageTitle)) ;;
  let header := htmt_ParseFiles A "assets/header.html" in
  (if failed header then parsingError (failed header) "header.html"
   else Execute header (ArgData data)) ;;
  let body := text_ParseFiles A "assets/svg.html" in
  (if failed body then parsingError (failed body) "svg.html"
   else Execute body (ArgData data)) ;;
  let footer := htmt_ParseFiles A "assets/footer.html" in
  (if failed footer then parsingError (failed footer) "footer.html"
   else Execute footer (ArgData data)).

(** [pageText[key]]: the empty string for a missing key. *)
Fixpoint index (m : list (string * string)) (key : string) : string :=
  match m with
  | [] => ""
  | (k, v) :: m' => if String.eqb k key then v else index m' key
  end.

Definition pageText : list (string * string) :=
  [("title", "Data entry form");
   ("placeHolderText",
    "Please enter array of coordinates, in comma-delimited format, in decimal degrees")].

(** [dataEntry] handles requests to the main page and presents a form for
    data entry. *)
Definition dataEntry (A : Assets) (r : Request) : H unit :=
  if String.eqb (Method r) "GET" then
    let head := htmt_ParseFiles A "assets/head.html" in
    parsingError (failed head) "head.html" ;;
    Execute head (ArgString (index pageText "title")) ;;
    let header := htmt_ParseFiles A "assets/header.html" in
    parsingError (failed header) "header.html" ;;
    Execute header ArgNil ;;
    let body := htmt_ParseFiles A "assets/dataEntry.html" in
    parsingError (failed body) "dataEntry.html" ;;
    Execute body (ArgMap pageText) ;;
    let footer := htmt_ParseFiles A "assets/footer.html" in
    parsingError (failed footer) "footer.html" ;;
    Execute footer ArgNil
  else hret tt.

(** [style] serves the style sheet. *)
Definition style (A : Assets) (r : Request) : H unit :=
  let stylesheet := htmt_ParseFiles A "assets/style.css" in
  Header_Set "Content-Type" "text/css" ;;
  parsingError (failed stylesheet) "style.css" ;;
  Execute stylesheet ArgNil.

(** What [parsingError] prints and logs for a file. *)
Definition errorBlock (filename : string) : string :=
  "<h1>Map could not be rendered</h1><p>Error parsing template file: "
  ++ filename ++ "</p>".

Definition errorLine (filename : string) : event :=
  ErrorLog ("Error parsing template file: " ++ filename ++ String LF "").

(** A file name whose log line needs the line feed added. *)
Definition plainName (filename : string) : Prop :=
  endsWithLF ("Error parsing template file: " ++ filename) = false.

(** What one guarded template adds to the body and to the log. *)
Definition shownBlock (t : option Template) (a : arg) (filename : string)
    : string :=
  match t with Some f => f a | None => errorBlock filename end.

Definition shownLog (t : option Template) (filename : string) : list event :=
  match t with Some _ => [] | None => [errorLine filename] end.

(** A writer with more body and more log. *)
Definition extend (w : Writer) (text : string) (lines : list event) : Writer :=
  {| header := header w; body := body w ++ text;
     logged := (logged w ++ lines)%list |}.

(** The templates of [dataEntry] in order, each with its argument and the
    name it is reported under. *)
Definition entryTemplates (A : Assets)
    : list (option Template * arg * string) :=
  [(htmt_ParseFiles A "assets/head.html",
    ArgString "Data entry form", "head.html");
   (htmt_ParseFiles A "assets/header.html", ArgNil, "header.html");
   (htmt_ParseFiles A "assets/dataEntry.html", ArgMap pageText,
    "dataEntry.html");
   (htmt_ParseFiles A "assets/footer.html", ArgNil, "footer.html")].

(** Templates executed without a guard: the output of those before the
    first one that failed to parse, then its error block; [true] when one
    failed. *)
Fixpoint unguarded (ts : list (option Template * arg * string))
    : string * list event * bool :=
  match ts with
  | [] => ("", [], false)
  | (Some f, a, _) :: ts' =>
      let '(text, lines, stopped) := unguarded ts' in
      (f a ++ text, lines, stopped)
  | (None, _, filename) :: _ => (errorBlock filename, [errorLine filename], true)
  end.

End Pages.

(** ** Template files to run the page handlers with *)

Module SamplePages.

Import Main Pages.

(** Every template writes its own name in brackets. *)
Definition named (name : string) : Template := fun _ => "[" ++ name ++ "]".

(** All files are there and parse. *)
Definition assets : Assets :=
  {| htmt_ParseFiles := fun path => Some (named path);
     text_ParseFiles := fun path => Some (named path) |}.


Definition blank : Writer := {| header := []; body := ""; logged := [] |}.

End SamplePages.

(** * Properties *)

(** ** The matcher computes the denotation *)

Module RegexpFacts.

Import Regexp.
Local Open Scope list_scope.

Lemma isnil_app (w1 w2 : list ascii) :
  isnil (w1 ++ w2) = isnil w1 && isnil w2.
Proof. destruct w1; reflexivity. Qed.

Lemma run_spec (r : Regexp) :
  forall bot s k,
    run r bot s k = true <->
    exists w rest, s = w ++ rest /\ den r bot w rest
                   /\ k (bot && isnil w) rest = true.
Proof.
  induction r as [ | c | lo hi | | | r1 IH1 r2 IH2 | r1 IH1 ];
    intros bot s k; simpl.
  - split.
    + intros H. exists [], s. rewrite andb_true_r. auto.
    + intros (w & rest & -> & -> & H). now rewrite andb_true_r in H.
  - split.
    + destruct s as [ | x s']; [discriminate | ].
      intros H. apply andb_true_iff in H as [Hx Hk].
      apply Ascii.eqb_eq in Hx. subst x.
      exists [c], s'. rewrite andb_false_r. auto.
    + intros (w & rest & -> & -> & H). simpl.
      rewrite andb_false_r in H. now rewrite Ascii.eqb_refl.
  - split.
    + destruct s as [ | x s']; [discriminate | ].
      intros H. apply andb_true_iff in H as [Hx Hk].
      exists [x], s'. rewrite andb_false_r. eauto.
    + intros (w & rest & -> & (x & -> & Hx) & H). simpl.
      rewrite andb_false_r in H. now rewrite Hx.
  - split.
    + intros H. apply andb_true_iff in H as [-> Hk].
      exists [], s. auto.
    + intros (w & rest & -> & (-> & ->) & H). exact H.
  - split.
    + destruct s as [ | x s']; [ | discriminate].
      intros H. exists [], []. rewrite andb_true_r. auto.
    + intros (w & rest & -> & (-> & ->) & H). now rewrite andb_true_r in H.
  - rewrite IH1. split.
    + intros (w1 & rest1 & -> & H1 & H2).
      apply IH2 in H2 as (w2 & rest & -> & H2 & Hk).
      exists (w1 ++ w2), rest. rewrite <- app_assoc. split; [reflexivity | ].
      split; [exists w1, w2; auto | ].
      now rewrite isnil_app, andb_assoc.
    + intros (w & rest & -> & (w1 & w2 & -> & H1 & H2) & Hk).
      exists w1, (w2 ++ rest). rewrite <- app_assoc.
      split; [reflexivity | ]. split; [exact H1 | ].
      apply IH2. exists w2, rest.
      rewrite isnil_app, andb_assoc in Hk. auto.
  - rewrite orb_true_iff, IH1. split.
    + intros [(w & rest & -> & H & Hk) | Hk].
      * exists w, rest. auto.
      * exists [], s. rewrite andb_true_r. auto.
    + intros (w & rest & -> & [-> | H] & Hk).
      * right. now rewrite andb_true_r in Hk.
      * left. exists w, rest. auto.
Qed.

Lemma search_spec (r : Regexp) :
  forall s bot,
    search r bot s = true <->
    exists pre w rest, s = pre ++ w ++ rest /\ den r (bot && isnil pre) w rest.
Proof.
  induction s as [ | x s IH]; intros bot; simpl;
    rewrite orb_true_iff, run_spec.
  - split.
    + intros [(w & rest & E & H & _) | H]; [ | discriminate].
      exists [], w, rest. rewrite andb_true_r. auto.
    + intros (pre & w & rest & E & H). left.
      destruct pre; [ | discriminate]. simpl in E.
      rewrite andb_true_r in H. exists w, rest. auto.
  - rewrite IH. split.
    + intros [(w & rest & E & H & _) | (pre & w & rest & E & H)].
      * exists [], w, rest. rewrite andb_true_r. auto.
      * exists (x :: pre), w, rest. simpl. rewrite andb_false_r.
        split; [now rewrite E | exact H].
    + intros (pre & w & rest & E & H). destruct pre as [ | y pre].
      * left. rewrite andb_true_r in H. exists w, rest. auto.
      * right. simpl in E. injection E as -> ->.
        rewrite andb_false_r in H. exists pre, w, rest. auto.
Qed.

End RegexpFacts.

(** ** The two patterns denote the grammar of the specification *)

Module GrammarFacts.

Import Strings Regexp RegexpFacts Main Spec Views.
Local Open Scope list_scope.

Lemma inClass_digit (c : ascii) : inClass "0" "9" c = isDigit c.
Proof. destruct c as [[] [] [] [] [] [] [] []]; reflexivity. Qed.

Lemma inClass_flag (c : ascii) :
  inClass "0" "1" c = true <-> c = "0"%char \/ c = "1"%char.
Proof.
  destruct c as [[] [] [] [] [] [] [] []]; vm_compute;
    intuition congruence.
Qed.

Lemma denotes_lit (c : ascii) : denotes (OpLiteral c) (lit (String c "")).
Proof. intros bot w rest. reflexivity. Qed.

Lemma denotes_flag : denotes (OpCharClass "0" "1") (alt (lit "0") (lit "1")).
Proof.
  intros bot w rest. simpl. unfold alt, lit. simpl. split.
  - intros (x & -> & H). apply inClass_flag in H as [-> | ->]; auto.
  - intros [-> | ->]; eexists; (split; [reflexivity | ]); reflexivity.
Qed.

Lemma denotes_cat r1 r2 G1 G2 :
  denotes r1 G1 -> denotes r2 G2 -> denotes (OpConcat r1 r2) (cat G1 G2).
Proof.
  intros H1 H2 bot w rest. simpl. unfold cat. split.
  - intros (w1 & w2 & -> & D1 & D2). exists w1, w2.
    apply H1 in D1. apply H2 in D2. auto.
  - intros (w1 & w2 & -> & D1 & D2). exists w1, w2.
    split; [reflexivity | ]. split; [now apply H1 | now apply H2].
Qed.

Lemma denotes_quest r G : denotes r G -> denotes (OpQuest r) (opt G).
Proof.
  intros H bot w rest. simpl. unfold opt. now rewrite (H bot w rest).
Qed.

Lemma denotes_times (n : nat) : denotes (times n digit) (digits n n).
Proof.
  induction n as [ | n IH]; intros bot w rest; simpl; unfold digits.
  - split.
    + intros ->. simpl. auto.
    + intros [[_ H] _]. destruct w; [reflexivity | simpl in H; lia].
  - split.
    + intros (w1 & w2 & -> & (x & -> & Hx) & D).
      apply IH in D as [Hlen Hall]. simpl. split; [lia | ].
      constructor; [now rewrite <- inClass_digit | exact Hall].
    + intros [Hlen Hall]. destruct w as [ | x w]; [simpl in Hlen; lia | ].
      inversion Hall as [ | ? ? Hx Hw]; subst.
      exists [x], w. split; [reflexivity | ]. split.
      * exists x. now rewrite inClass_digit.
      * apply IH. split; [simpl in Hlen; lia | exact Hw].
Qed.

Lemma denotes_upto (m : nat) : denotes (upto m digit) (digits 0 m).
Proof.
  induction m as [ | m IH]; intros bot w rest; simpl; unfold digits.
  - split.
    + intros ->. simpl. auto.
    + intros [[_ H] _]. destruct w; [reflexivity | simpl in H; lia].
  - split.
    + intros [-> | (w1 & w2 & -> & (x & -> & Hx) & D)].
      * simpl. split; [lia | constructor].
      * apply IH in D as [Hlen Hall]. simpl. split; [lia | ].
        constructor; [now rewrite <- inClass_digit | exact Hall].
    + intros [Hlen Hall]. destruct w as [ | x w]; [now left | right].
      inversion Hall as [ | ? ? Hx Hw]; subst.
      exists [x], w. split; [reflexivity | ]. split.
      * exists x. now rewrite inClass_digit.
      * apply IH. split; [simpl in Hlen; lia | exact Hw].
Qed.

Lemma denotes_repeat (lo hi : nat) :
  lo <= hi -> denotes (OpRepeat digit lo hi) (digits lo hi).
Proof.
  intros Hle bot w rest. unfold OpRepeat.
  rewrite (denotes_cat (denotes_times lo) (denotes_upto (hi - lo)) bot w rest).
  unfold cat, digits. split.
  - intros (w1 & w2 & -> & [L1 A1] & [L2 A2]).
    rewrite length_app. split; [lia | ]. apply Forall_app. auto.
  - intros [Hlen Hall]. exists (firstn lo w), (skipn lo w).
    rewrite firstn_skipn. split; [reflexivity | ].
    rewrite <- (firstn_skipn lo w) in Hall. apply Forall_app in Hall as [A1 A2].
    rewrite length_firstn, length_skipn. repeat split; auto; lia.
Qed.

Lemma denotes_fraction : denotes fraction fractional.
Proof.
  apply denotes_quest, denotes_cat;
    [apply denotes_lit | apply denotes_repeat; lia].
Qed.

Lemma to_end_nil : denotes_to_end OpEndText (fun w => w = []).
Proof. intros bot w rest. reflexivity. Qed.

Lemma to_end_cat r1 r2 G1 G2 :
  denotes r1 G1 -> denotes_to_end r2 G2 ->
  denotes_to_end (OpConcat r1 r2) (cat G1 G2).
Proof.
  intros H1 H2 bot w rest. simpl. unfold cat. split.
  - intros (w1 & w2 & -> & D1 & D2).
    apply H1 in D1. apply H2 in D2 as [D2 ->]. eauto 6.
  - intros [(w1 & w2 & -> & D1 & D2) ->]. exists w1, w2.
    split; [reflexivity | ]. split; [now apply H1 | now apply H2].
Qed.

(** A pattern of the form [^r] with [r] ending in [$] is found in a text
    exactly when the whole text is a word of the language. *)
Lemma anchored r G :
  denotes_to_end r G ->
  forall s, search (OpConcat OpBeginText r) true s = true <-> G s.
Proof.
  intros H s. rewrite search_spec. split.
  - intros (pre & w & rest & -> & w1 & w2 & -> & [-> Hbot] & D).
    apply andb_true_iff in Hbot as [_ Hpre].
    destruct pre; [ | discriminate].
    apply H in D as [D ->]. simpl. now rewrite app_nil_r.
  - intros Hs. exists [], s, []. rewrite app_nil_r.
    split; [reflexivity | ]. exists [], s.
    split; [reflexivity | ]. split; [split; reflexivity | ].
    apply H. auto.
Qed.

Lemma cat_same G G1 G2 : same G1 G2 -> same (cat G G1) (cat G G2).
Proof.
  intros H w. unfold cat. split; intros (w1 & w2 & -> & A & B);
    exists w1, w2; (split; [reflexivity | ]); (split; [exact A | ]);
    now apply H.
Qed.

Lemma cat_nil_r G : same (cat G (fun w => w = [])) G.
Proof.
  intros w. unfold cat. split.
  - intros (w1 & w2 & -> & A & ->). now rewrite app_nil_r.
  - intros A. exists w, []. now rewrite app_nil_r.
Qed.

Lemma noVoucherPattern_spec (line : string) :
  noVoucherPattern line = true <-> plain_line line.
Proof.
  unfold noVoucherPattern, MatchString, noVoucherRe, plain_line.
  rewrite anchored.
  2:{ repeat first
        [ apply to_end_nil
        | apply to_end_cat;
          [ first [ apply denotes_quest, denotes_lit | apply denotes_lit
                  | apply denotes_repeat; lia | apply denotes_fraction ] | ] ]. }
  unfold plain_words, chars.
  repeat (apply cat_same). apply cat_nil_r.
Qed.

Lemma voucherPattern_spec (line : string) :
  voucherPattern line = true <-> voucher_line line.
Proof.
  unfold voucherPattern, MatchString, voucherRe, voucher_line.
  rewrite anchored.
  2:{ repeat first
        [ apply to_end_nil
        | apply to_end_cat;
          [ first [ apply denotes_quest, denotes_lit | apply denotes_lit
                  | apply denotes_repeat; lia | apply denotes_fraction
                  | apply denotes_flag ] | ] ]. }
  unfold voucher_words, chars.
  repeat (apply cat_same). apply cat_nil_r.
Qed.

End GrammarFacts.

(** ** The classifier *)

Module ClassifierFacts.

Import Strings Regexp Main Spec Views GrammarFacts.
Local Open Scope list_scope.

Lemma commas_app w1 w2 : commas (w1 ++ w2) = commas w1 + commas w2.
Proof. apply count_occ_app. Qed.

Lemma commas_digits lo hi w : digits lo hi w -> commas w = 0.
Proof.
  intros [_ Hall]. induction Hall as [ | c w Hc _ IH]; [reflexivity | ].
  unfold commas in *. simpl. destruct (ascii_dec c ","%char) as [-> | _].
  - discriminate Hc.
  - exact IH.
Qed.

Lemma commas_sign w : opt (lit "-") w -> commas w = 0.
Proof. intros [-> | ->]; reflexivity. Qed.

Lemma commas_fractional w : fractional w -> commas w = 0.
Proof.
  intros [-> | (w1 & w2 & -> & -> & H)]; [reflexivity | ].
  rewrite commas_app, (commas_digits H). reflexivity.
Qed.

Lemma commas_comma w : lit "," w -> commas w = 1.
Proof. intros ->. reflexivity. Qed.

Lemma commas_flag w : alt (lit "0") (lit "1") w -> commas w = 0.
Proof. intros [-> | ->]; reflexivity. Qed.

Ltac count_commas :=
  repeat match goal with
         | H : cat _ _ _ |- _ =>
             let w1 := fresh "w" in
             let w2 := fresh "w" in
             destruct H as (w1 & w2 & -> & ? & ?)
         end;
  repeat rewrite commas_app;
  repeat match goal with
         | H : digits _ _ _ |- _ => rewrite (commas_digits H); clear H
         | H : opt (lit "-") _ |- _ => rewrite (commas_sign H); clear H
         | H : fractional _ |- _ => rewrite (commas_fractional H); clear H
         | H : lit "," _ |- _ => rewrite (commas_comma H); clear H
         | H : alt _ _ _ |- _ => rewrite (commas_flag H); clear H
         end;
  reflexivity.

Lemma commas_plain w : plain_words w -> commas w = 1.
Proof. unfold plain_words. intros H. count_commas. Qed.

Lemma commas_voucher w : voucher_words w -> commas w = 2.
Proof. unfold voucher_words. intros H. count_commas. Qed.

Lemma grammars_disjoint (line : string) :
  voucher_line line -> plain_line line -> False.
Proof.
  intros Hv Hp. apply commas_voucher in Hv. apply commas_plain in Hp.
  congruence.
Qed.

(** C1.  On every first record, [classify] answers [Voucher] exactly for
    the words of [voucher_line], [NoVoucher] exactly for the words of
    [plain_line] that are not words of [voucher_line], and [Invalid] exactly
    for the words of neither grammar. *)
Theorem classify_follows_grammar (line : string) :
  (classify line = Voucher <-> voucher_line line)
  /\ (classify line = NoVoucher <-> plain_line line /\ ~ voucher_line line)
  /\ (classify line = Invalid <-> ~ voucher_line line /\ ~ plain_line line).
Proof.
  pose proof (voucherPattern_spec line) as Hv.
  pose proof (noVoucherPattern_spec line) as Hp.
  unfold classify.
  destruct (voucherPattern line); destruct (noVoucherPattern line);
    intuition (discriminate || auto).
Qed.

(** C6.  The two tests never both succeed on one first record; the
    voucher test decides first, so a record passing it is [Voucher]
    whatever the second test says, and a record passing the second test is
    [NoVoucher]. *)
Theorem patterns_exclusive_voucher_first (line : string) :
  voucherPattern line && noVoucherPattern line = false
  /\ (classify line = Voucher <-> voucherPattern line = true)
  /\ (classify line = NoVoucher <-> noVoucherPattern line = true).
Proof.
  assert (Hex : voucherPattern line && noVoucherPattern line = false).
  { destruct (voucherPattern line) eqn:Hv;
      destruct (noVoucherPattern line) eqn:Hp; try reflexivity.
    exfalso. apply (@grammars_disjoint line).
    - now apply voucherPattern_spec.
    - now apply noVoucherPattern_spec. }
  split; [exact Hex | ]. unfold classify.
  destruct (voucherPattern line); destruct (noVoucherPattern line);
    try discriminate Hex; split; split; congruence.
Qed.

(** The classifications the specification lists as examples. *)
Example classify_examples :
  classify "-42.12344,147.43321,1" = Voucher
  /\ classify "-42.12344,147.43321" = NoVoucher
  /\ classify "42.12344,147.43321" = NoVoucher
  /\ classify "abc" = Invalid
  /\ classify "not,coords" = Invalid.
Proof. repeat split. Qed.

(** A latitude with one integer digit, a longitude with two, and an
    eleventh fractional digit are all rejected. *)
Example classify_boundaries :
  classify "-4.5,147.4" = Invalid
  /\ classify "-42.1,47.4" = Invalid
  /\ classify "-42.12345678901,147.4" = Invalid
  /\ classify "-42.1234567890,147.4" = NoVoucher
  /\ classify "-42.,147.,0" = Voucher
  /\ classify "-42.1,147.4,2" = Invalid.
Proof. repeat split. Qed.

End ClassifierFacts.

(** ** The dispatcher *)

Module DispatchFacts.

Import Strings Regexp Mapper Effects Main Spec Views.
Local Open Scope list_scope.

Lemma drawMap_selected (E : Engine) (vp : bool) (style : string)
    (rl : RecordList E) (mapBuffer : Buffer) :
  drawMap E vp style rl mapBuffer =
  match selected (if vp then Voucher else NoVoucher) style with
  | Some e => render E e rl mapBuffer
  | None => ret mapBuffer
  end.
Proof.
  unfold drawMap, selected.
  destruct vp; destruct (String.eqb style "grid"); try reflexivity;
    destruct (String.eqb style "plain"); try reflexivity;
    destruct (String.eqb style "web"); reflexivity.
Qed.

(** [mapSVG] by the outcome of the classification. *)
Lemma mapSVG_by_format (U : Unicode) (E : Engine) (data : mapData) :
  mapSVG U E data =
  match classify (firstRecord U data) with
  | Voucher =>
      let rl := NewVoucherRecordList E (RawCoords data) (TaxonName data) in
      let out := drawMap E true (MapType data) rl "" in
      (value out,
       Built newVoucherRecordList (RawCoords data) (TaxonName data)
       :: trace out)
  | NoVoucher =>
      let rl := NewRecordList E (RawCoords data) (TaxonName data) in
      let out := drawMap E false (MapType data) rl "" in
      (value out,
       Built newRecordList (RawCoords data) (TaxonName data) :: trace out)
  | Invalid =>
      ("I can't interpret these coordinates"%string,
       [ErrorLog (invalidLine (firstRecord U data))])
  end.
Proof.
  unfold mapSVG, classify.
  destruct (voucherPattern (firstRecord U data)).
  - cbn -[drawMap]. destruct (drawMap _ _ _ _ _). cbn.
    rewrite app_nil_r. reflexivity.
  - destruct (noVoucherPattern (firstRecord U data)).
    + cbn -[drawMap]. destruct (drawMap _ _ _ _ _). cbn.
      rewrite app_nil_r. reflexivity.
    + reflexivity.
Qed.

Lemma rendered_drawMap (E : Engine) (vp : bool) (style : string)
    (rl : RecordList E) (mapBuffer : Buffer) :
  rendered_entries (trace (drawMap E vp style rl mapBuffer)) =
  match selected (if vp then Voucher else NoVoucher) style with
  | Some e => [e]
  | None => []
  end.
Proof.
  rewrite drawMap_selected.
  destruct (selected _ style) as [e | ]; reflexivity.
Qed.

(** C2.  The [switch] of [mapSVG] is the dispatch table: for a voucher
    list and for a plain list it calls the entry point the table selects,
    once, on the given list and buffer, and for a style outside the table it
    calls none and leaves the (empty) buffer as it is; the entry points
    [mapSVG] goes through are those the table selects for the format of the
    first record and the requested style. *)
Theorem dispatch_follows_table (U : Unicode) (E : Engine) :
  (forall (vp : bool) (style : string) (rl : RecordList E),
      drawMap E vp style rl "" =
      match selected (if vp then Voucher else NoVoucher) style with
      | Some e => render E e rl ""
      | None => ret ""%string
      end)
  /\ (forall data : mapData,
         rendered_entries (trace (mapSVG U E data)) =
         match selected (classify (firstRecord U data)) (MapType data) with
         | Some e => [e]
         | None => []
         end).
Proof.
  split.
  - intros vp style rl. apply drawMap_selected.
  - intros data. rewrite mapSVG_by_format.
    destruct (classify (firstRecord U data)); cbn -[drawMap selected].
    + apply (rendered_drawMap E false).
    + apply (rendered_drawMap E true).
    + reflexivity.
Qed.

(** C4.  When the first record is [Invalid], [mapSVG] returns the fixed
    message, logs one line that carries the first record, and calls neither
    a constructor nor an entry point of the engine. *)
Theorem invalid_is_terminal (U : Unicode) (E : Engine) (data : mapData) :
  classify (firstRecord U data) = Invalid ->
  mapSVG U E data =
    ("I can't interpret these coordinates"%string,
     [ErrorLog
        ("Coordinates contain an error in the first line and cannot be interpreted "
         ++ firstRecord U data ++ String LF "")%string])
  /\ built_lists (trace (mapSVG U E data)) = []
  /\ rendered_entries (trace (mapSVG U E data)) = [].
Proof.
  intros H. rewrite mapSVG_by_format, H. repeat split.
Qed.

Lemma invalid_is_terminal_witness :
  let data := {| TaxonName := "Acacia dealbata"; MapType := "grid";
                 RawCoords := "not,coords"; SVGmap := "" |} in
  (forall U, classify (firstRecord U data) = Invalid)
  /\ (forall U E,
         mapSVG U E data =
         ("I can't interpret these coordinates"%string,
          [ErrorLog
             ("Coordinates contain an error in the first line and cannot be interpreted "
              ++ "not,coords" ++ String LF "")%string])).
Proof.
  split.
  - intros U. reflexivity.
  - intros U E.
    exact (proj1 (@invalid_is_terminal U E
                    {| TaxonName := "Acacia dealbata"; MapType := "grid";
                       RawCoords := "not,coords"; SVGmap := "" |}
                    eq_refl)).
Defined.

End DispatchFacts.

(** ** The slot shared by the two handlers *)

Module CacheFacts.

Import Strings Regexp Mapper Effects Main Spec Views DispatchFacts.
Local Open Scope list_scope.

Lemma ReplaceAll_space_hyphen (s : string) :
  ReplaceAll s " " "-" = mapBytes hyphen s.
Proof.
  induction s as [ | c s IH]; [reflexivity | ].
  simpl. rewrite IH. unfold hyphen. destruct (Ascii.eqb c " "); reflexivity.
Qed.

(** A form submission overwrites the three fields, whatever they held. *)
Lemma mapDisplay_POST (U : Unicode) (E : Engine) (svm : svgMap) (r : Request) :
  Method r = "POST"%string ->
  mapDisplay U E svm r =
  ((stored U E r,
    Page ("Preview map for " ++ FormValue r "taxon")
      (set_SVGmap (value (mapSVG U E (newMapData U r))) (newMapData U r))),
   trace (mapSVG U E (newMapData U r))).
Proof.
  intros HP. unfold mapDisplay, stored, fileName. rewrite HP.
  rewrite ReplaceAll_space_hyphen.
  cbn -[mapSVG newMapData ToLower mapBytes].
  destruct (mapSVG U E (newMapData U r)) as [body t].
  cbn -[ToLower mapBytes newMapData]. rewrite app_nil_r. reflexivity.
Qed.

Lemma mapDisplay_other (U : Unicode) (E : Engine) (svm : svgMap) (r : Request) :
  Method r <> "POST"%string ->
  mapDisplay U E svm r = ((svm, Redirect "/" 301), []).
Proof.
  intros HP. unfold mapDisplay.
  destruct (String.eqb_spec (Method r) "POST"); [contradiction | reflexivity].
Qed.

Lemma mapAsFile_absent (svm : svgMap) (r : Request) :
  svgMap' svm = ""%string ->
  mapAsFile svm r =
  (CacheAbsent,
   [ErrorLog
      ("Attempt to access map from memory before a map is generated"
       ++ String LF "")%string]).
Proof. intros H. unfold mapAsFile. rewrite H. reflexivity. Qed.

Lemma mapAsFile_present (svm : svgMap) (r : Request) :
  svgMap' svm <> ""%string -> mapAsFile svm r = (attachment svm, []).
Proof.
  intros H. unfold mapAsFile.
  destruct (String.eqb_spec (svgMap' svm) ""); [contradiction | reflexivity].
Qed.

Lemma mapAsFile_value (svm : svgMap) (r : Request) :
  value (mapAsFile svm r) =
  if String.eqb (svgMap' svm) "" then CacheAbsent else attachment svm.
Proof.
  unfold mapAsFile. destruct (String.eqb (svgMap' svm) ""); reflexivity.
Qed.

(** An empty svg body comes from a first record that is not [Invalid], with
    a style outside the table or an entry point that wrote nothing. *)
Lemma mapSVG_empty_iff (U : Unicode) (E : Engine) (data : mapData) :
  value (mapSVG U E data) = ""%string <->
  match classify (firstRecord U data),
        selected (classify (firstRecord U data)) (MapType data) with
  | Invalid, _ => False
  | _, None => True
  | Voucher, Some e =>
      value (render E e
               (NewVoucherRecordList E (RawCoords data) (TaxonName data)) "")
      = ""%string
  | NoVoucher, Some e =>
      value (render E e
               (NewRecordList E (RawCoords data) (TaxonName data)) "")
      = ""%string
  end.
Proof.
  rewrite mapSVG_by_format.
  destruct (classify (firstRecord U data)); cbn -[drawMap selected render].
  - rewrite (drawMap_selected E false).
    destruct (selected NoVoucher (MapType data)); [reflexivity | ].
    split; [trivial | reflexivity].
  - rewrite (drawMap_selected E true).
    destruct (selected Voucher (MapType data)); [reflexivity | ].
    split; [trivial | reflexivity].
  - split; [discriminate | contradiction].
Qed.

Lemma mapAsFile_absent_iff (svm : svgMap) (r : Request) :
  value (mapAsFile svm r) = CacheAbsent <-> svgMap' svm = ""%string.
Proof.
  split.
  - intros H. destruct (string_dec (svgMap' svm) "") as [e | n]; [exact e | ].
    rewrite (@mapAsFile_present svm r n) in H. discriminate H.
  - intros H. now rewrite (@mapAsFile_absent svm r H).
Qed.

(** Downloads alone leave the slot as it is and all see the same. *)
Lemma serveAll_downloads (U : Unicode) (E : Engine) (m : svgMap)
    (loads : list Request) :
  value (serveAll U E m (map mapfile loads)) =
  (m, map (fun r => Served (value (mapAsFile m r))) loads).
Proof.
  induction loads as [ | r loads IH]; [reflexivity | ].
  cbn -[mapAsFile]. unfold value in *.
  destruct (mapAsFile m r) as [resp t]. cbn -[mapAsFile].
  destruct (serveAll U E m (map mapfile loads)) as [[m' answers] t'].
  cbn in *. now inversion IH.
Qed.

(** The slot after a run of requests is what the latest store wrote. *)
Lemma slot_after (U : Unicode) (E : Engine) (qs : list Route) :
  forall svm,
    fst (value (serveAll U E svm qs)) =
    match lastStore qs with
    | Some r => stored U E r
    | None => svm
    end.
Proof.
  induction qs as [ | q qs IH]; intros svm; [reflexivity | ].
  cbn -[mapDisplay mapAsFile]. unfold value in *.
  destruct (handle U E svm q) as [[svm1 a] t] eqn:Hq.
  cbn -[mapDisplay mapAsFile].
  specialize (IH svm1).
  destruct (serveAll U E svm1 qs) as [[svm2 answers] t']. cbn in *.
  rewrite IH. destruct (lastStore qs) as [r' | ]; [reflexivity | ].
  destruct q as [r | r]; unfold handle in Hq.
  - destruct (String.eqb_spec (Method r) "POST") as [HP | HP].
    + rewrite (@mapDisplay_POST U E svm r HP) in Hq. cbn in Hq.
      now inversion Hq.
    + rewrite (@mapDisplay_other U E svm r HP) in Hq. cbn in Hq.
      now inversion Hq.
  - destruct (mapAsFile svm r). cbn in Hq. now inversion Hq.
Qed.

End CacheFacts.

(** ** Store and load *)

Module StoreLoad.

Import Strings Regexp Mapper Effects Main Spec Views DispatchFacts CacheFacts.
Local Open Scope list_scope.

(** C3, corrected.  A download from the fresh slot gets the fixed answer
    [There is no map in memory] and logs one line.  A form submission leaves
    exactly its map in the slot, and every download that follows, up to the
    next submission, leaves the slot as it is and is served that map (its
    svg body as the body, its name in the [Content-Disposition] field) when
    the svg body is not empty, and the answer for an absent map when it
    is. *)
Theorem load_returns_stored (U : Unicode) (E : Engine) (svm : svgMap)
    (r r0 : Request) (loads : list Request) :
  Method r = "POST"%string ->
  mapAsFile new_svgMap r0 =
    (CacheAbsent,
     [ErrorLog
        ("Attempt to access map from memory before a map is generated"
         ++ String LF "")%string])
  /\ fst (value (mapDisplay U E svm r)) = stored U E r
  /\ value (serveAll U E (stored U E r) (map mapfile loads)) =
       (stored U E r,
        map (fun _ =>
               Served (if String.eqb (svgMap' (stored U E r)) ""
                       then CacheAbsent
                       else attachment (stored U E r)))
          loads).
Proof.
  intros HP. split; [now apply mapAsFile_absent | ]. split.
  - now rewrite (@mapDisplay_POST U E svm r HP).
  - rewrite serveAll_downloads. f_equal. apply map_ext. intros r1.
    now rewrite mapAsFile_value.
Qed.

Lemma load_returns_stored_witness :
  let r := Sample.post "Acacia dealbata" "grid" "-42.1,147.4" in
  let m := {| mapName := "acacia-dealbata.grid.svg"; mapType := "grid";
              svgMap' := "<svg>grid</svg>" |} in
  Method r = "POST"%string
  /\ (forall U, stored U Sample.engine r = m)
  /\ (forall U,
         fst (value (mapDisplay U Sample.engine new_svgMap r)) = m
         /\ value (serveAll U Sample.engine m
                     (map mapfile [Sample.get; Sample.get])) =
              (m, [Served (attachment m); Served (attachment m)])).
Proof.
  split; [reflexivity | ]. split.
  - intros U. reflexivity.
  - intros U.
    exact (proj2 (@load_returns_stored U Sample.engine new_svgMap
                    (Sample.post "Acacia dealbata" "grid" "-42.1,147.4")
                    Sample.get [Sample.get; Sample.get] eq_refl)).
Defined.

(** Against C3 as the specification states it: a form submission with a
    valid first line and no map style stores a map with an empty svg body,
    and the download that follows gets the answer for an absent map, not the
    stored map. *)
Lemma empty_store_reads_absent :
  let r := Sample.post "Acacia dealbata" "" "-42.1,147.4" in
  let m := {| mapName := "acacia-dealbata..svg"; mapType := "";
              svgMap' := "" |} in
  Method r = "POST"%string
  /\ (forall U E svm, fst (value (mapDisplay U E svm r)) = m)
  /\ (forall r0, value (mapAsFile m r0) = CacheAbsent)
  /\ (forall r0, value (mapAsFile m r0) <> attachment m).
Proof.
  repeat split.
  - intros r0 H. discriminate H.
Qed.

(** C5, corrected.  A display request whose first record is [Invalid]
    overwrites the slot when it is a form submission: the map type becomes
    the requested style, the name is derived from the taxon and the style,
    and the svg body becomes the fixed message.  Only a request that is not
    a form submission leaves every field as it was. *)
Theorem invalid_display_overwrites (U : Unicode) (E : Engine) (svm : svgMap)
    (r : Request) :
  classify (firstRecord U (newMapData U r)) = Invalid ->
  fst (value (mapDisplay U E svm r)) =
  if String.eqb (Method r) "POST" then
    {| mapName := fileName U (FormValue r "taxon") (FormValue r "maptype");
       mapType := FormValue r "maptype";
       svgMap' := "I can't interpret these coordinates" |}
  else svm.
Proof.
  intros H. destruct (String.eqb_spec (Method r) "POST") as [HP | HP].
  - rewrite (@mapDisplay_POST U E svm r HP). unfold stored.
    now rewrite mapSVG_by_format, H.
  - now rewrite (@mapDisplay_other U E svm r HP).
Qed.

Lemma invalid_display_overwrites_witness :
  let r := Sample.post "Banksia" "plain" "not,coords" in
  (forall U, classify (firstRecord U (newMapData U r)) = Invalid)
  /\ (forall U E svm,
         fst (value (mapDisplay U E svm r)) =
         {| mapName := "banksia.plain.svg"; mapType := "plain";
            svgMap' := "I can't interpret these coordinates" |}).
Proof.
  split.
  - intros U. reflexivity.
  - intros U E svm.
    exact (@invalid_display_overwrites U E svm
             (Sample.post "Banksia" "plain" "not,coords") eq_refl).
Defined.

(** Against C5 as the specification states it: the slot holds a grid map,
    a form submission with the first line [not,coords] follows, and
    afterwards all three fields differ from what they were. *)
Lemma invalid_display_mutates_slot :
  let old := {| mapName := "acacia-dealbata.grid.svg"; mapType := "grid";
                svgMap' := "<svg>grid</svg>" |} in
  let r := Sample.post "Banksia" "plain" "not,coords" in
  (forall U, classify (firstRecord U (newMapData U r)) = Invalid)
  /\ (forall U E,
         fst (value (mapDisplay U E old r)) =
         {| mapName := "banksia.plain.svg"; mapType := "plain";
            svgMap' := "I can't interpret these coordinates" |})
  /\ (forall U E, fst (value (mapDisplay U E old r)) <> old).
Proof.
  repeat split.
  - intros U E H. discriminate H.
Qed.

(** C10.  After a form submission whose first record is [Invalid] the svg
    body in the slot is the fixed message, and a download is served that
    message as an [image/svg+xml] attachment under the derived name, with no
    log line, instead of the answer for an absent map. *)
Theorem invalid_display_then_download (U : Unicode) (E : Engine)
    (svm : svgMap) (r r0 : Request) :
  Method r = "POST"%string ->
  classify (firstRecord U (newMapData U r)) = Invalid ->
  svgMap' (fst (value (mapDisplay U E svm r))) =
    "I can't interpret these coordinates"%string
  /\ mapAsFile (fst (value (mapDisplay U E svm r))) r0 =
       ({| Header :=
             [("Content-Type", "image/svg+xml");
              ("Content-Disposition",
               "attachment; filename="
               ++ fileName U (FormValue r "taxon") (FormValue r "maptype"))];
           Body := "I can't interpret these coordinates" |}%string, [])
  /\ value (mapAsFile (fst (value (mapDisplay U E svm r))) r0) <> CacheAbsent.
Proof.
  intros HP H. rewrite (@mapDisplay_POST U E svm r HP). unfold stored.
  rewrite mapSVG_by_format, H. cbn -[fileName]. repeat split. discriminate.
Qed.

Lemma invalid_display_then_download_witness :
  let r := Sample.post "Banksia" "plain" "not,coords" in
  Method r = "POST"%string
  /\ (forall U, classify (firstRecord U (newMapData U r)) = Invalid)
  /\ (forall U E svm,
         value (mapAsFile (fst (value (mapDisplay U E svm r))) Sample.get) =
         {| Header := [("Content-Type", "image/svg+xml");
                       ("Content-Disposition",
                        "attachment; filename=banksia.plain.svg")];
            Body := "I can't interpret these coordinates" |}%string).
Proof.
  split; [reflexivity | ]. split.
  - intros U. reflexivity.
  - intros U E svm.
    exact (f_equal fst
             (proj1 (proj2 (@invalid_display_then_download U E svm
                              (Sample.post "Banksia" "plain" "not,coords")
                              Sample.get eq_refl eq_refl)))).
Defined.

(** C8.  After a form submission the name in the slot is the taxon name
    in lower case with every space turned into a hyphen, then a dot, the map
    style and [.svg]; a download that serves the map announces it as
    [attachment; filename=] followed by that name. *)
Theorem download_name (U : Unicode) (E : Engine) (svm : svgMap)
    (r r0 : Request) :
  Method r = "POST"%string ->
  mapName (fst (value (mapDisplay U E svm r))) =
    fileName U (FormValue r "taxon") (FormValue r "maptype")
  /\ (value (mapAsFile (fst (value (mapDisplay U E svm r))) r0) = CacheAbsent
      \/ Header (value (mapAsFile (fst (value (mapDisplay U E svm r))) r0)) =
         [("Content-Type", "image/svg+xml");
          ("Content-Disposition",
           "attachment; filename="
           ++ fileName U (FormValue r "taxon") (FormValue r "maptype"))]%string).
Proof.
  intros HP. rewrite (@mapDisplay_POST U E svm r HP). cbn -[stored mapAsFile].
  split; [reflexivity | ].
  destruct (string_dec (svgMap' (stored U E r)) "") as [e | n].
  - left. now rewrite (@mapAsFile_absent (stored U E r) r0 e).
  - right. now rewrite (@mapAsFile_present (stored U E r) r0 n).
Qed.

Lemma download_name_witness :
  let r := Sample.post "Acacia Dealbata" "grid" "-42.1,147.4" in
  Method r = "POST"%string
  /\ (forall U E svm,
         mapName (fst (value (mapDisplay U E svm r))) =
         "acacia-dealbata.grid.svg"%string).
Proof.
  split; [reflexivity | ].
  intros U E svm.
  exact (proj1 (@download_name U E svm
                  (Sample.post "Acacia Dealbata" "grid" "-42.1,147.4")
                  Sample.get eq_refl)).
Defined.

(** C7, corrected.  No request clears the slot and a download never
    changes it: after any run of requests the slot holds what the latest
    form submission stored (the fresh value when there was none).  A
    download then observes an absent map exactly when there was no
    submission yet or the latest one wrote an empty svg body; [mapSVG]
    returns the empty body exactly when the first record is not [Invalid]
    and the style is outside the table or the selected entry point wrote
    nothing. *)
Theorem absent_iff_last_store_empty (U : Unicode) (E : Engine)
    (qs : list Route) (r0 : Request) :
  fst (value (serveAll U E new_svgMap qs)) =
    match lastStore qs with
    | Some r => stored U E r
    | None => new_svgMap
    end
  /\ (value (mapAsFile (fst (value (serveAll U E new_svgMap qs))) r0)
      = CacheAbsent <->
      match lastStore qs with
      | Some r => value (mapSVG U E (newMapData U r)) = ""%string
      | None => True
      end)
  /\ (forall data : mapData,
         value (mapSVG U E data) = ""%string <->
         match classify (firstRecord U data),
               selected (classify (firstRecord U data)) (MapType data) with
         | Invalid, _ => False
         | _, None => True
         | Voucher, Some e =>
             value (render E e
                      (NewVoucherRecordList E (RawCoords data)
                         (TaxonName data)) "") = ""%string
         | NoVoucher, Some e =>
             value (render E e
                      (NewRecordList E (RawCoords data) (TaxonName data)) "")
             = ""%string
         end).
Proof.
  split; [apply slot_after | ]. split.
  - rewrite mapAsFile_absent_iff, slot_after.
    destruct (lastStore qs) as [r | ]; [reflexivity | ].
    split; [trivial | reflexivity].
  - apply mapSVG_empty_iff.
Qed.

(** Against C7 as the specification states it: with the sample engine, a
    form submission for a grid map makes downloads see a map, and a second
    submission with a valid first line and no map style makes them see an
    absent map again, whatever the engine. *)
Lemma store_can_clear_slot :
  let r1 := Sample.post "Acacia dealbata" "grid" "-42.1,147.4" in
  let r2 := Sample.post "Acacia dealbata" "" "-42.1,147.4" in
  (forall U,
      value (mapAsFile
               (fst (value (serveAll U Sample.engine new_svgMap [map_ r1])))
               Sample.get) =
      attachment {| mapName := "acacia-dealbata.grid.svg"; mapType := "grid";
                    svgMap' := "<svg>grid</svg>" |})
  /\ (forall U E,
         value (mapAsFile
                  (fst (value (serveAll U E new_svgMap [map_ r1; map_ r2])))
                  Sample.get) = CacheAbsent).
Proof.
  split.
  - intros U. reflexivity.
  - intros U E. apply mapAsFile_absent_iff. rewrite slot_after. reflexivity.
Qed.

(** The first scenario of the specification with the sample engine: two
    plain lines, style [plain]. *)
Example plain_scenario (U : Unicode) :
  let coordinates :=
    ("-42.12344,147.43321" ++ String LF "-41.34221,145.43442")%string in
  mapDisplay U Sample.engine new_svgMap
    (Sample.post "Acacia dealbata" "plain" coordinates) =
  (({| mapName := "acacia-dealbata.plain.svg"; mapType := "plain";
       svgMap' := "<svg>plain</svg>" |},
    Page "Preview map for Acacia dealbata"
      {| TaxonName := "Acacia dealbata"; MapType := "plain";
         RawCoords := coordinates; SVGmap := "<svg>plain</svg>" |}),
   [Built newRecordList coordinates "Acacia dealbata"; Rendered exactMap]).
Proof. reflexivity. Qed.

End StoreLoad.

(** ** Requests that overlap, and requests that do not *)

Module InterleavingFacts.

Import Strings Regexp Mapper Effects Main Spec Views CacheFacts Interleaving.
Local Open Scope list_scope.

Lemma nth_error_middle {A : Type} (pre : list A) (x : A) (post : list A) :
  nth_error (pre ++ x :: post) (List.length pre) = Some x.
Proof. induction pre as [ | y pre IH]; [reflexivity | exact IH]. Qed.

Lemma update_middle {A : Type} (pre : list A) (x y : A) (post : list A) :
  update (List.length pre) y (pre ++ x :: post) = pre ++ y :: post.
Proof.
  induction pre as [ | z pre IH]; [reflexivity | ]. simpl. now rewrite IH.
Qed.

(** Scheduling one thread [n] times in a row runs it for [n] steps. *)
Lemma exec_repeat (U : Unicode) (E : Engine) (pre post : list thread)
    (rest : list nat) :
  forall n svm t,
    exec U E (repeat (List.length pre) n ++ rest) svm (pre ++ t :: post) =
    exec U E rest (fst (run_thread U E n svm t))
      (pre ++ snd (run_thread U E n svm t) :: post).
Proof.
  induction n as [ | n IH]; intros svm t; [reflexivity | ].
  simpl. rewrite nth_error_middle.
  destruct (step U E svm t) as [svm' t']. rewrite update_middle. apply IH.
Qed.

(** Run alone, a handler call does what the handler does in one piece. *)
Lemma run_thread_handle (U : Unicode) (E : Engine) (svm : svgMap) (q : Route) :
  run_thread U E steps svm (spawn U q) =
  (fst (value (handle U E svm q)), Done (snd (value (handle U E svm q)))).
Proof.
  destruct q as [r | r]; unfold spawn, handle.
  - unfold mapDisplay. destruct (String.eqb (Method r) "POST").
    + cbn -[mapSVG newMapData ToLower ReplaceAll].
      destruct (mapSVG U E (newMapData U r)) as [body t]. reflexivity.
    + reflexivity.
  - unfold mapAsFile. cbn. destruct (String.eqb (svgMap' svm) ""); reflexivity.
Qed.

Lemma serial_from_S (k n : nat) :
  serial_from k (S n) = repeat k steps ++ serial_from (S k) n.
Proof. reflexivity. Qed.

(** The serial schedule computes what [serveAll] computes. *)
Lemma exec_serial (U : Unicode) (E : Engine) (qs : list Route) :
  forall pre svm,
    exec U E (serial_from (List.length pre) (List.length qs)) svm
      (pre ++ map (spawn U) qs) =
    (fst (value (serveAll U E svm qs)),
     pre ++ map Done (snd (value (serveAll U E svm qs)))).
Proof.
  induction qs as [ | q qs IH]; intros pre svm; [reflexivity | ].
  cbn [List.length map]. rewrite serial_from_S, exec_repeat, run_thread_handle.
  cbn [fst snd].
  replace (pre ++ Done (snd (value (handle U E svm q))) :: map (spawn U) qs)
    with ((pre ++ [Done (snd (value (handle U E svm q)))])
          ++ map (spawn U) qs)
    by (rewrite <- app_assoc; reflexivity).
  replace (S (List.length pre))
    with (List.length (pre ++ [Done (snd (value (handle U E svm q)))]))
    by (rewrite length_app; simpl; lia).
  rewrite IH. rewrite <- app_assoc.
  cbn -[handle]. unfold value.
  destruct (handle U E svm q) as [[svm1 a] t]. cbn -[handle].
  destruct (serveAll U E svm1 qs) as [[svm2 answers] t']. reflexivity.
Qed.

Lemma serveAll_cons (U : Unicode) (E : Engine) (svm : svgMap) (q : Route)
    (qs : list Route) :
  value (serveAll U E svm (q :: qs)) =
  (fst (value (serveAll U E (fst (value (handle U E svm q))) qs)),
   snd (value (handle U E svm q))
   :: snd (value (serveAll U E (fst (value (handle U E svm q))) qs))).
Proof.
  cbn -[handle]. unfold value.
  destruct (handle U E svm q) as [[svm1 a] t]. cbn -[handle].
  destruct (serveAll U E svm1 qs) as [[svm2 answers] t']. reflexivity.
Qed.

(** The answer to the [i]-th request is the handler's answer on the slot
    left by the requests before it. *)
Lemma answer_at (U : Unicode) (E : Engine) (qs : list Route) :
  forall i svm q,
    nth_error qs i = Some q ->
    nth_error (snd (value (serveAll U E svm qs))) i =
    Some (snd (value (handle U E
                        (fst (value (serveAll U E svm (firstn i qs)))) q))).
Proof.
  induction qs as [ | q0 qs IH]; intros i svm q Hq.
  - destruct i; discriminate Hq.
  - rewrite serveAll_cons. destruct i as [ | i].
    + injection Hq as ->. reflexivity.
    + cbn [nth_error snd firstn]. rewrite serveAll_cons. cbn [fst].
      now apply IH.
Qed.

(** C9, corrected.  The source guards the slot with no lock.  When the
    requests do not overlap (every handler call finishes before the next one
    starts) the interleaved handlers compute what the handlers compute one
    after the other, and every download is answered either with the answer
    for an absent map or with the complete map stored by the latest form
    submission before it. *)
Theorem serial_loads_consistent (U : Unicode) (E : Engine) (qs : list Route) :
  exec U E (serial (List.length qs)) new_svgMap (map (spawn U) qs) =
    (fst (value (serveAll U E new_svgMap qs)),
     map Done (snd (value (serveAll U E new_svgMap qs))))
  /\ (forall (i : nat) (r : Request),
         nth_error qs i = Some (mapfile r) ->
         exists resp : Response,
           nth_error
             (snd (exec U E (serial (List.length qs)) new_svgMap
                     (map (spawn U) qs))) i
           = Some (Done (Served resp))
           /\ (resp = CacheAbsent
               \/ exists r' : Request,
                   lastStore (firstn i qs) = Some r'
                   /\ resp = attachment (stored U E r'))).
Proof.
  assert (Hexec : exec U E (serial (List.length qs)) new_svgMap
                    (map (spawn U) qs) =
                  (fst (value (serveAll U E new_svgMap qs)),
                   map Done (snd (value (serveAll U E new_svgMap qs))))).
  { apply (exec_serial U E qs [] new_svgMap). }
  split; [exact Hexec | ].
  intros i r Hq. rewrite Hexec. cbn [snd].
  rewrite nth_error_map, (answer_at U E qs i new_svgMap Hq).
  cbn -[mapAsFile serveAll]. unfold value at 1. 
  destruct (mapAsFile (fst (value (serveAll U E new_svgMap (firstn i qs)))) r)
    as [resp t] eqn:Hresp.
  cbn [fst snd]. exists resp. split; [reflexivity | ].
  assert (Hv : value (mapAsFile
                        (fst (value (serveAll U E new_svgMap (firstn i qs))))
                        r) = resp) by now rewrite Hresp.
  clear Hresp. rewrite slot_after in Hv.
  destruct (lastStore (firstn i qs)) as [r' | ].
  - destruct (string_dec (svgMap' (stored U E r')) "") as [e | n].
    + left. now rewrite (@mapAsFile_absent (stored U E r') r e) in Hv.
    + right. exists r'. split; [reflexivity | ].
      now rewrite (@mapAsFile_present (stored U E r') r n) in Hv.
  - left. now rewrite <- Hv.
Qed.

Lemma serial_loads_consistent_witness :
  let r1 := Sample.post "Acacia dealbata" "grid" "-42.1,147.4" in
  let qs := [mapfile Sample.get; map_ r1; mapfile Sample.get] in
  let m := {| mapName := "acacia-dealbata.grid.svg"; mapType := "grid";
              svgMap' := "<svg>grid</svg>" |} in
  nth_error qs 2 = Some (mapfile Sample.get)
  /\ (forall U, lastStore (firstn 2 qs) = Some r1
                /\ stored U Sample.engine r1 = m)
  /\ (forall U,
         exists resp : Response,
           nth_error
             (snd (exec U Sample.engine (serial (List.length qs)) new_svgMap
                     (map (spawn U) qs))) 2
           = Some (Done (Served resp))
           /\ (resp = CacheAbsent
               \/ exists r' : Request,
                   lastStore (firstn 2 qs) = Some r'
                   /\ resp = attachment (stored U Sample.engine r'))).
Proof.
  split; [reflexivity | ]. split.
  - intros U. split; reflexivity.
  - intros U.
    exact (proj2 (@serial_loads_consistent U Sample.engine
                    [mapfile Sample.get;
                     map_ (Sample.post "Acacia dealbata" "grid" "-42.1,147.4");
                     mapfile Sample.get])
             2 Sample.get eq_refl).
Defined.

(** Against C9 as the specification states it: a first form submission
    has stored a grid map; a second one, for another taxon and style, has
    written the map type and the name but not yet the svg body when a
    download runs.  The download is served the name of the second map with
    the svg body of the first, which is neither the answer for an absent map
    nor either of the two maps. *)
Lemma overlapping_load_mixes_stores :
  let r1 := Sample.post "Acacia dealbata" "grid" "-42.1,147.4" in
  let r2 := Sample.post "Banksia" "plain" "-41.3,145.4" in
  let qs := [map_ r1; map_ r2; mapfile Sample.get] in
  let sched := [0; 0; 0; 0; 0; 1; 1; 1; 2; 2; 2; 1; 1] in
  let mixed := {| Header := [("Content-Type", "image/svg+xml");
                            ("Content-Disposition",
                             "attachment; filename=banksia.plain.svg")];
                  Body := "<svg>grid</svg>" |}%string in
  (forall U,
      nth_error (snd (exec U Sample.engine sched new_svgMap
                        (map (spawn U) qs))) 2
      = Some (Done (Served mixed)))
  /\ mixed <> CacheAbsent
  /\ (forall U, mixed <> attachment (stored U Sample.engine r1))
  /\ (forall U, mixed <> attachment (stored U Sample.engine r2)).
Proof.
  split; [intros U; reflexivity | ].
  split; [discriminate | ].
  split; intros U H; discriminate H.
Qed.

End InterleavingFacts.

(** ** More on the records that pass a test *)

Module RecordShape.

Import Strings Regexp Main Spec Views Shapes GrammarFacts ClassifierFacts.
Local Open Scope list_scope.

Lemma digit_restChar (c : ascii) : isDigit c = true -> restChar c = true.
Proof. destruct c as [[] [] [] [] [] [] [] []]; cbv; congruence. Qed.

Lemma restChar_coordChar (c : ascii) : restChar c = true -> coordChar c = true.
Proof. destruct c as [[] [] [] [] [] [] [] []]; cbv; congruence. Qed.

Lemma restChar_not_minus (c : ascii) : restChar c = true -> c <> "-"%char.
Proof. intros H ->. discriminate H. Qed.

Lemma rest_digits lo hi w :
  digits lo hi w -> Forall (fun c => restChar c = true) w.
Proof.
  intros [_ H]. eapply Forall_impl; [ | exact H]. apply digit_restChar.
Qed.

Lemma rest_fractional w :
  fractional w -> Forall (fun c => restChar c = true) w.
Proof.
  intros [-> | (w1 & w2 & -> & -> & H)]; [constructor | ].
  constructor; [reflexivity | exact (rest_digits H)].
Qed.

Lemma rest_comma w : lit "," w -> Forall (fun c => restChar c = true) w.
Proof. intros ->. repeat constructor. Qed.

Lemma rest_flag w :
  alt (lit "0") (lit "1") w -> Forall (fun c => restChar c = true) w.
Proof. intros [-> | ->]; repeat constructor. Qed.

(** A word of either grammar is an optional minus sign followed by bytes
    among [.,0123456789]. *)
Lemma plain_sign_rest w :
  plain_words w ->
  exists sign rest,
    w = sign ++ rest /\ (sign = [] \/ sign = ["-"%char])
    /\ Forall (fun c => restChar c = true) rest.
Proof.
  intros (s & w1 & -> & Hs & (d2 & w2 & -> & Hd2 & (f1 & w3 & -> & Hf1
          & (c1 & w4 & -> & Hc1 & (d3 & f2 & -> & Hd3 & Hf2))))).
  exists s, (d2 ++ f1 ++ c1 ++ d3 ++ f2). split; [reflexivity | ].
  split; [destruct Hs as [-> | ->]; auto | ].
  repeat (apply Forall_app; split);
    eauto using rest_digits, rest_fractional, rest_comma.
Qed.

Lemma voucher_sign_rest w :
  voucher_words w ->
  exists sign rest,
    w = sign ++ rest /\ (sign = [] \/ sign = ["-"%char])
    /\ Forall (fun c => restChar c = true) rest.
Proof.
  intros (s & w1 & -> & Hs & (d2 & w2 & -> & Hd2 & (f1 & w3 & -> & Hf1
          & (c1 & w4 & -> & Hc1 & (d3 & w5 & -> & Hd3 & (f2 & w6 & -> & Hf2
          & (c2 & fl & -> & Hc2 & Hfl))))))).
  exists s, (d2 ++ f1 ++ c1 ++ d3 ++ f2 ++ c2 ++ fl).
  split; [reflexivity | ].
  split; [destruct Hs as [-> | ->]; auto | ].
  repeat (apply Forall_app; split);
    eauto using rest_digits, rest_fractional, rest_comma, rest_flag.
Qed.

Lemma classified_words (line : string) :
  classify line <> Invalid ->
  voucher_words (chars line) \/ plain_words (chars line).
Proof.
  unfold classify. intros H.
  destruct (voucherPattern line) eqn:Hv.
  - left. now apply voucherPattern_spec.
  - destruct (noVoucherPattern line) eqn:Hp.
    + right. now apply noVoucherPattern_spec.
    + contradiction.
Qed.

Lemma length_chars (s : string) : List.length (chars s) = String.length s.
Proof. induction s as [ | c s IH]; [reflexivity | simpl; now rewrite IH]. Qed.

Lemma length_sign w : opt (lit "-") w -> List.length w <= 1.
Proof. intros [-> | ->]; simpl; lia. Qed.

Lemma length_fractional w : fractional w -> List.length w <= 11.
Proof.
  intros [-> | (w1 & w2 & -> & -> & [H _])]; simpl; lia.
Qed.

Lemma length_flag w : alt (lit "0") (lit "1") w -> List.length w = 1.
Proof. intros [-> | ->]; reflexivity. Qed.

Lemma length_plain w : plain_words w -> 6 <= List.length w <= 29.
Proof.
  intros (s & w1 & -> & Hs & (d2 & w2 & -> & [Hd2 _] & (f1 & w3 & -> & Hf1
          & (c1 & w4 & -> & -> & (d3 & f2 & -> & [Hd3 _] & Hf2))))).
  apply length_sign in Hs. apply length_fractional in Hf1, Hf2.
  repeat rewrite length_app. simpl. lia.
Qed.

Lemma length_voucher w : voucher_words w -> 8 <= List.length w <= 31.
Proof.
  intros (s & w1 & -> & Hs & (d2 & w2 & -> & [Hd2 _] & (f1 & w3 & -> & Hf1
          & (c1 & w4 & -> & -> & (d3 & w5 & -> & [Hd3 _] & (f2 & w6 & -> & Hf2
          & (c2 & fl & -> & -> & Hfl))))))).
  apply length_sign in Hs. apply length_fractional in Hf1, Hf2.
  apply length_flag in Hfl.
  repeat rewrite length_app. simpl. lia.
Qed.

(** X1.  A first record that passes either test consists of bytes among
    [-.,0123456789] only, and a minus sign can only be its first byte: the
    longitude is never signed. *)
Theorem valid_record_alphabet (line : string) :
  classify line <> Invalid ->
  Forall (fun c => coordChar c = true) (chars line)
  /\ ~ In "-"%char (tl (chars line)).
Proof.
  intros H.
  assert (Hw : exists sign rest,
             chars line = sign ++ rest /\ (sign = [] \/ sign = ["-"%char])
             /\ Forall (fun c => restChar c = true) rest).
  { destruct (@classified_words line H) as [Hv | Hp];
      [exact (@voucher_sign_rest _ Hv) | exact (@plain_sign_rest _ Hp)]. }
  destruct Hw as (sign & rest & -> & Hs & Hr).
  assert (Hc : Forall (fun c => coordChar c = true) rest).
  { eapply Forall_impl; [ | exact Hr]. apply restChar_coordChar. }
  rewrite Forall_forall in Hr.
  destruct Hs as [-> | ->]; simpl.
  - split; [exact Hc | ]. intros Hin.
    destruct rest as [ | x rest]; [exact Hin | ].
    apply (@restChar_not_minus "-"%char); [ | reflexivity].
    apply Hr. now right.
  - split; [constructor; [reflexivity | exact Hc] | ]. intros Hin.
    now apply (@restChar_not_minus "-"%char); [apply Hr | ].
Qed.

Lemma valid_record_alphabet_witness :
  classify "-42.12344,147.43321,1" <> Invalid
  /\ ~ In "-"%char (tl (chars "-42.12344,147.43321,1")).
Proof.
  split; [discriminate | ].
  exact (proj2 (@valid_record_alphabet "-42.12344,147.43321,1"
                  (fun H => match H with eq_refl => I end))).
Defined.

(** X2.  A record classified [NoVoucher] has one comma and between 6 and
    29 bytes; a record classified [Voucher] has two commas and between 8 and
    31 bytes. *)
Theorem valid_record_size (line : string) :
  (classify line = NoVoucher ->
   commas (chars line) = 1 /\ 6 <= String.length line <= 29)
  /\ (classify line = Voucher ->
      commas (chars line) = 2 /\ 8 <= String.length line <= 31).
Proof.
  rewrite <- length_chars. unfold classify.
  pose proof (voucherPattern_spec line) as Hv.
  pose proof (noVoucherPattern_spec line) as Hp.
  destruct (voucherPattern line).
  - split; [discriminate | ]. intros _.
    assert (H : voucher_words (chars line)) by now apply Hv.
    split; [now apply commas_voucher | now apply length_voucher].
  - destruct (noVoucherPattern line).
    + split; [ | discriminate]. intros _.
      assert (H : plain_words (chars line)) by now apply Hp.
      split; [now apply commas_plain | now apply length_plain].
    + split; discriminate.
Qed.

Lemma valid_record_size_witness :
  classify "42,147" = NoVoucher
  /\ commas (chars "42,147") = 1 /\ 6 <= String.length "42,147" <= 29.
Proof.
  split; [reflexivity | ].
  exact (proj1 (valid_record_size "42,147") eq_refl).
Defined.

(** The bounds are reached. *)
Example valid_record_size_reached :
  classify "42,147" = NoVoucher
  /\ classify "-42.1234567890,147.1234567890" = NoVoucher
  /\ classify "42,147,0" = Voucher
  /\ classify "-42.1234567890,147.1234567890,1" = Voucher.
Proof. repeat split. Qed.

End RecordShape.

(** ** From the form field to the first record *)

Module FirstLine.

Import Strings Regexp Mapper Effects Main Spec Views Shapes.
Import GrammarFacts ClassifierFacts DispatchFacts RecordShape.
Local Open Scope list_scope.

Lemma chars_app (a b : string) : chars (a ++ b)%string = chars a ++ chars b.
Proof. induction a as [ | c a IH]; [reflexivity | simpl; now rewrite IH]. Qed.

Lemma str_chars (s : string) : str (chars s) = s.
Proof. apply string_of_list_ascii_of_string. Qed.

Lemma chars_str (l : list ascii) : chars (str l) = l.
Proof. apply list_ascii_of_string_of_list_ascii. Qed.

(** The first piece of a split is the text before the first separator. *)
Lemma Split_first (l rest : string) :
  ~ In LF (chars l) ->
  nth 0 (Split (l ++ String LF rest)%string LF) ""%string = l.
Proof.
  induction l as [ | c l IH]; intros Hn; simpl.
  - reflexivity.
  - destruct (Ascii.eqb_spec c LF) as [-> | _].
    + exfalso. apply Hn. now left.
    + assert (Hl : ~ In LF (chars l)) by (intros Hin; apply Hn; now right).
      specialize (IH Hl).
      destruct (Split (l ++ String LF rest)%string LF) as [ | piece pieces];
        simpl in *; now rewrite IH.
Qed.

Lemma Split_whole (l : string) :
  ~ In LF (chars l) -> nth 0 (Split l LF) ""%string = l.
Proof.
  induction l as [ | c l IH]; intros Hn; simpl; [reflexivity | ].
  destruct (Ascii.eqb_spec c LF) as [-> | _].
  - exfalso. apply Hn. now left.
  - assert (Hl : ~ In LF (chars l)) by (intros Hin; apply Hn; now right).
    specialize (IH Hl).
    destruct (Split l LF) as [ | piece pieces]; simpl in *; now rewrite IH.
Qed.

Lemma asciiSpace_ASCII (c : ascii) : asciiSpace c = true -> nonASCII c = false.
Proof. destruct c as [[] [] [] [] [] [] [] []]; cbv; congruence. Qed.

Lemma coordChar_solid (c : ascii) :
  coordChar c = true -> nonASCII c = false /\ asciiSpace c = false /\ c <> LF.
Proof.
  destruct c as [[] [] [] [] [] [] [] []]; cbv; intros H;
    try discriminate H; repeat split; discriminate.
Qed.

Lemma TrimSpace_stop_spaces (U : Unicode) (ws rs : list ascii) :
  Forall (fun c => asciiSpace c = true) ws ->
  TrimSpace_stop U (ws ++ rs) = TrimSpace_stop U rs.
Proof.
  induction 1 as [ | c ws Hc _ IH]; [reflexivity | ].
  simpl. now rewrite (asciiSpace_ASCII c Hc), Hc.
Qed.

Lemma TrimSpace_stop_ASCII (U : Unicode) (rs : list ascii) :
  Forall (fun c => nonASCII c = false) rs ->
  TrimSpace_stop U rs = str (rev (dropWhile asciiSpace rs)).
Proof.
  induction 1 as [ | c rs Hc _ IH]; [reflexivity | ].
  simpl. rewrite Hc. destruct (asciiSpace c); [exact IH | reflexivity].
Qed.

Lemma TrimSpace_ASCII (U : Unicode) (s : string) :
  Forall (fun c => nonASCII c = false) (chars s) ->
  TrimSpace U s = str (trimmed (chars s)).
Proof.
  unfold trimmed. induction s as [ | c s IH]; intros H; [reflexivity | ].
  inversion H as [ | ? ? Hc Hs]; subst. simpl. rewrite Hc.
  destruct (asciiSpace c).
  - now apply IH.
  - apply (TrimSpace_stop_ASCII U). apply Forall_rev. exact H.
Qed.

Lemma In_dropWhile {A : Type} (p : A -> bool) (x : A) (l : list A) :
  In x (dropWhile p l) -> In x l.
Proof.
  induction l as [ | y l IH]; simpl; [auto | ].
  destruct (p y); [right; now apply IH | auto].
Qed.

Lemma In_trimmed (x : ascii) (l : list ascii) : In x (trimmed l) -> In x l.
Proof.
  unfold trimmed. intros H. apply in_rev in H. apply In_dropWhile in H.
  apply in_rev in H. now apply In_dropWhile in H.
Qed.

Lemma chars_ReplaceAll_blank (s : string) :
  chars (ReplaceAll s " " "") = filter notBlank (chars s).
Proof.
  induction s as [ | c s IH]; [reflexivity | ].
  simpl. unfold notBlank at 1. destruct (Ascii.eqb c " "); simpl;
    now rewrite IH.
Qed.

Lemma isASCII_Forall (s : string) :
  isASCII s = true <-> Forall (fun c => nonASCII c = false) (chars s).
Proof.
  induction s as [ | c s IH]; simpl.
  - split; [constructor | reflexivity].
  - rewrite andb_true_iff, negb_true_iff, IH. split.
    + intros [Hc Hs]. now constructor.
    + intros H. now inversion H.
Qed.

Lemma classified_alphabet (line : string) :
  classify line <> Invalid -> Forall (fun c => coordChar c = true) (chars line).
Proof.
  intros H.
  assert (Hw : exists sign rest,
             chars line = sign ++ rest /\ (sign = [] \/ sign = ["-"%char])
             /\ Forall (fun c => restChar c = true) rest).
  { destruct (@classified_words line H) as [Hv | Hp];
      [exact (@voucher_sign_rest _ Hv) | exact (@plain_sign_rest _ Hp)]. }
  destruct Hw as (sign & rest & -> & Hs & Hr).
  apply Forall_app. split.
  - destruct Hs as [-> | ->]; repeat constructor.
  - eapply Forall_impl; [ | exact Hr]. apply restChar_coordChar.
Qed.

Lemma classified_nonempty (line : string) :
  classify line <> Invalid -> chars line <> [].
Proof.
  intros H E.
  destruct (@classified_words line H) as [Hv | Hp].
  - apply length_voucher in Hv. rewrite E in Hv. simpl in Hv. lia.
  - apply length_plain in Hp. rewrite E in Hp. simpl in Hp. lia.
Qed.

(** Trailing white space after a record that passes a test is trimmed
    away and nothing else is. *)
Lemma TrimSpace_record (U : Unicode) (line ws : string) :
  classify line <> Invalid ->
  Forall (fun c => asciiSpace c = true) (chars ws) ->
  TrimSpace U (line ++ ws)%string = line.
Proof.
  intros Hc Hws.
  pose proof (@classified_alphabet line Hc) as Ha.
  pose proof (@classified_nonempty line Hc) as Hne.
  destruct line as [ | c line]; [now contradiction Hne | ].
  assert (Hfirst : coordChar c = true) by now inversion Ha.
  destruct (coordChar_solid c Hfirst) as (H1 & H2 & _).
  cbn [append TrimSpace]. rewrite H1, H2.
  change (String c (line ++ ws)%string) with (String c line ++ ws)%string.
  rewrite chars_app, rev_app_distr.
  rewrite TrimSpace_stop_spaces by now apply Forall_rev.
  destruct (rev (chars (String c line))) as [ | x rs] eqn:Hrev.
  - apply (f_equal (@rev ascii)) in Hrev. rewrite rev_involutive in Hrev.
    discriminate Hrev.
  - assert (Hx : coordChar x = true).
    { rewrite Forall_forall in Ha. apply Ha. apply in_rev.
      rewrite Hrev. now left. }
    destruct (coordChar_solid x Hx) as (Hx1 & Hx2 & _).
    cbn [TrimSpace_stop]. rewrite Hx1, Hx2, <- Hrev, rev_involutive.
    apply str_chars.
Qed.

End FirstLine.

(** ** What the form field does to the classification *)

Module InputFacts.

Import Strings Regexp Mapper Effects Main Spec Views Shapes.
Import GrammarFacts ClassifierFacts DispatchFacts RecordShape FirstLine.
Local Open Scope list_scope.

Lemma built_by_format (U : Unicode) (E : Engine) (data : mapData) :
  built_lists (trace (mapSVG U E data)) =
  match classify (firstRecord U data) with
  | Voucher => [newVoucherRecordList]
  | NoVoucher => [newRecordList]
  | Invalid => []
  end.
Proof.
  rewrite mapSVG_by_format.
  destruct (classify (firstRecord U data)); cbn -[drawMap];
    try reflexivity; rewrite drawMap_selected;
    destruct (selected _ (MapType data)); reflexivity.
Qed.

Lemma firstRecord_first (U : Unicode) (data : mapData) (l rest : string) :
  ~ In LF (chars l) ->
  RawCoords data = (l ++ String LF rest)%string ->
  firstRecord U data = TrimSpace U l.
Proof.
  intros Hn Hraw. unfold firstRecord. now rewrite Hraw, Split_first.
Qed.

(** X3.  Only the text before the first line feed is looked at: two
    inputs that agree up to there have the same first record, the same
    classification and go through the same constructor of the engine,
    whatever their later lines are. *)
Theorem later_lines_ignored (U : Unicode) (E : Engine) (data1 data2 : mapData)
    (l rest1 rest2 : string) :
  ~ In LF (chars l) ->
  RawCoords data1 = (l ++ String LF rest1)%string ->
  RawCoords data2 = (l ++ String LF rest2)%string ->
  firstRecord U data1 = firstRecord U data2
  /\ classify (firstRecord U data1) = classify (firstRecord U data2)
  /\ built_lists (trace (mapSVG U E data1)) =
     built_lists (trace (mapSVG U E data2)).
Proof.
  intros Hn H1 H2.
  assert (Hf : firstRecord U data1 = firstRecord U data2).
  { rewrite (@firstRecord_first U data1 l rest1 Hn H1).
    now rewrite (@firstRecord_first U data2 l rest2 Hn H2). }
  split; [exact Hf | ]. split; [now rewrite Hf | ].
  now rewrite !built_by_format, Hf.
Qed.

Lemma later_lines_ignored_witness :
  let data1 := {| TaxonName := "Acacia dealbata"; MapType := "grid";
                  RawCoords := "-42.1,147.4" ++ String LF "not,coords";
                  SVGmap := "" |}%string in
  let data2 := {| TaxonName := "Acacia dealbata"; MapType := "grid";
                  RawCoords := "-42.1,147.4" ++ String LF "-41.3,145.4";
                  SVGmap := "" |}%string in
  ~ In LF (chars "-42.1,147.4")
  /\ (forall U, classify (firstRecord U data2) = NoVoucher)
  /\ (forall U, classify (firstRecord U data1)
                = classify (firstRecord U data2)).
Proof.
  intros data1 data2.
  split; [intros H; repeat (destruct H as [H | H]; [discriminate H | ]);
          exact H | ].
  split; [intros U; reflexivity | ].
  intros U.
  refine (proj1 (proj2 (@later_lines_ignored U Sample.engine data1 data2
                          "-42.1,147.4" "not,coords" "-41.3,145.4"
                          _ eq_refl eq_refl))).
  intros H; repeat (destruct H as [H | H]; [discriminate H | ]); exact H.
Defined.

(** X4.  White space other than a line feed between a record that passes a
    test and the end of its line (the carriage return a browser sends before
    each line feed) does not change the first record: it is the record
    itself. *)
Theorem line_end_is_trimmed (U : Unicode) (data : mapData)
    (l ws tail : string) :
  classify l <> Invalid ->
  Forall (fun c => asciiSpace c = true /\ c <> LF) (chars ws) ->
  tail = ""%string \/ (exists rest, tail = String LF rest) ->
  RawCoords data = (l ++ ws ++ tail)%string ->
  firstRecord U data = l.
Proof.
  intros Hc Hws Htail Hraw.
  assert (Hsp : Forall (fun c => asciiSpace c = true) (chars ws)).
  { eapply Forall_impl; [ | exact Hws]. now intros c [H _]. }
  assert (Hn : ~ In LF (chars (l ++ ws)%string)).
  { rewrite chars_app. intros Hin. apply in_app_or in Hin as [Hin | Hin].
    - pose proof (@classified_alphabet l Hc) as Ha.
      rewrite Forall_forall in Ha.
      destruct (coordChar_solid LF (Ha LF Hin)) as (_ & _ & Hne).
      now apply Hne.
    - rewrite Forall_forall in Hws. destruct (Hws LF Hin) as [_ Hne].
      now apply Hne. }
  unfold firstRecord. rewrite Hraw.
  destruct Htail as [-> | [rest ->]].
  - replace (l ++ ws ++ "")%string with (l ++ ws)%string.
    + rewrite (@Split_whole _ Hn). now apply TrimSpace_record.
    + clear. induction l as [ | c l IH]; simpl.
      * induction ws as [ | c ws IH]; simpl; [reflexivity | now rewrite <- IH].
      * now rewrite IH.
  - replace (l ++ ws ++ String LF rest)%string
      with ((l ++ ws) ++ String LF rest)%string.
    + rewrite (@Split_first _ rest Hn). now apply TrimSpace_record.
    + clear. induction l as [ | c l IH]; simpl; [reflexivity | now rewrite IH].
Qed.

Lemma line_end_is_trimmed_witness :
  let CR := String "013"%char "" in
  let data := {| TaxonName := "Acacia dealbata"; MapType := "grid";
                 RawCoords := "-42.1,147.4,1" ++ CR
                              ++ String LF ("-41.3,145.4,0" ++ CR);
                 SVGmap := "" |}%string in
  classify "-42.1,147.4,1" = Voucher
  /\ (forall U, firstRecord U data = "-42.1,147.4,1"%string).
Proof.
  intros CR data.
  split; [reflexivity | ].
  intros U.
  refine (@line_end_is_trimmed U data "-42.1,147.4,1" (String "013"%char "")
            (String LF ("-41.3,145.4,0" ++ String "013"%char ""))
            _ _ (or_intror (ex_intro _ _ eq_refl)) eq_refl).
  - discriminate.
  - repeat constructor. discriminate.
Defined.

Lemma TrimSpace_blank (U : Unicode) (s : string) :
  Forall (fun c => asciiSpace c = true) (chars s) -> TrimSpace U s = ""%string.
Proof.
  induction s as [ | c s IH]; intros H; [reflexivity | ].
  inversion H as [ | ? ? Hc Hs]; subst. simpl.
  rewrite (asciiSpace_ASCII c Hc), Hc. now apply IH.
Qed.

Lemma Forall_filter_keeps {A : Type} (P : A -> Prop) (p : A -> bool)
    (l : list A) :
  Forall P l -> Forall P (filter p l).
Proof.
  rewrite !Forall_forall. intros H x Hin. apply filter_In in Hin as [Hin _].
  now apply H.
Qed.

(** X5.  A form whose coordinates field is missing, empty or made of
    ASCII white space only gives empty raw coordinates, and [mapSVG] rejects
    them like any other first record it cannot interpret: the fixed message
    and one log line, with nothing after its last space. *)
Theorem blank_coordinates_rejected (U : Unicode) (E : Engine) (r : Request) :
  Forall (fun c => asciiSpace c = true) (chars (FormValue r "coordinates")) ->
  RawCoords (newMapData U r) = ""%string
  /\ mapSVG U E (newMapData U r) =
       ("I can't interpret these coordinates"%string,
        [ErrorLog
           ("Coordinates contain an error in the first line and cannot be interpreted "
            ++ String LF "")%string]).
Proof.
  intros H.
  assert (Hraw : RawCoords (newMapData U r) = ""%string).
  { cbn [newMapData RawCoords]. apply TrimSpace_blank.
    rewrite chars_ReplaceAll_blank. now apply Forall_filter_keeps. }
  split; [exact Hraw | ].
  assert (Hfr : firstRecord U (newMapData U r) = ""%string).
  { unfold firstRecord. rewrite Hraw. reflexivity. }
  rewrite mapSVG_by_format, Hfr. reflexivity.
Qed.

Lemma blank_coordinates_rejected_witness :
  let r := {| Method := "POST"; Form := [("taxon", ["Acacia dealbata"])] |} in
  FormValue r "coordinates" = ""%string
  /\ (forall U E,
         value (mapSVG U E (newMapData U r)) =
         "I can't interpret these coordinates"%string).
Proof.
  intros r. split; [reflexivity | ].
  intros U E.
  exact (f_equal fst
           (proj2 (@blank_coordinates_rejected U E r (Forall_nil _)))).
Defined.

(** X6.  For a coordinates field of ASCII bytes the raw coordinates are the
    field with every space removed and the ASCII white space at both ends
    trimmed away; tabs and line breaks inside are kept, and no space is left
    anywhere. *)
Theorem RawCoords_stripped (U : Unicode) (r : Request) :
  isASCII (FormValue r "coordinates") = true ->
  chars (RawCoords (newMapData U r)) =
    trimmed (filter notBlank (chars (FormValue r "coordinates")))
  /\ ~ In " "%char (chars (RawCoords (newMapData U r))).
Proof.
  intros H. apply isASCII_Forall in H.
  assert (Heq : chars (RawCoords (newMapData U r)) =
                trimmed (filter notBlank (chars (FormValue r "coordinates")))).
  { cbn [newMapData RawCoords]. rewrite TrimSpace_ASCII.
    - now rewrite chars_str, chars_ReplaceAll_blank.
    - rewrite chars_ReplaceAll_blank. now apply Forall_filter_keeps. }
  split; [exact Heq | ].
  rewrite Heq. intros Hin. apply In_trimmed in Hin.
  apply filter_In in Hin as [_ Hb]. discriminate Hb.
Qed.

Lemma RawCoords_stripped_witness :
  let TAB := String "009"%char "" in
  let r := Sample.post "Acacia dealbata" "grid"
             (" -42.1, 147.4 " ++ String LF " -41.3 ,145.4 " ++ TAB
              ++ String LF "")%string in
  isASCII (FormValue r "coordinates") = true
  /\ (forall U,
         RawCoords (newMapData U r) =
         ("-42.1,147.4" ++ String LF "-41.3,145.4")%string)
  /\ (forall U, ~ In " "%char (chars (RawCoords (newMapData U r)))).
Proof.
  intros TAB r. split; [reflexivity | ]. split; [intros U; reflexivity | ].
  intros U. exact (proj2 (@RawCoords_stripped U r eq_refl)).
Defined.

(** X7.  Everything [mapSVG] does, by the format of the first record and
    the table: for [Voucher] and [NoVoucher] it calls the matching
    constructor once, first, with the whole raw text and the taxon name,
    then at most the one selected entry point on the list just built and the
    empty buffer, and it logs nothing; for [Invalid] it only logs. *)
Theorem mapSVG_complete (U : Unicode) (E : Engine) (data : mapData) :
  mapSVG U E data =
  match classify (firstRecord U data) with
  | Voucher =>
      let rl := NewVoucherRecordList E (RawCoords data) (TaxonName data) in
      let built := Built newVoucherRecordList (RawCoords data)
                     (TaxonName data) in
      match selected Voucher (MapType data) with
      | Some e => (value (render E e rl ""), [built; Rendered e])
      | None => (""%string, [built])
      end
  | NoVoucher =>
      let rl := NewRecordList E (RawCoords data) (TaxonName data) in
      let built := Built newRecordList (RawCoords data) (TaxonName data) in
      match selected NoVoucher (MapType data) with
      | Some e => (value (render E e rl ""), [built; Rendered e])
      | None => (""%string, [built])
      end
  | Invalid =>
      ("I can't interpret these coordinates"%string,
       [ErrorLog (invalidLine (firstRecord U data))])
  end.
Proof.
  rewrite mapSVG_by_format.
  destruct (classify (firstRecord U data)); cbn -[drawMap selected render];
    try reflexivity; rewrite drawMap_selected;
    destruct (selected _ (MapType data)); reflexivity.
Qed.

End InputFacts.

(** ** The two handlers together *)

Module HandlerFacts.

Import Strings Regexp Mapper Effects Main Spec Views Shapes.
Import DispatchFacts CacheFacts FirstLine Interleaving.
Local Open Scope list_scope.

(** X8.  A form submission shows what it stores, and stores what it
    shows: the page carries the svg body that is in the slot afterwards, the
    next download sends that very body (or the answer for an absent map when
    it is empty), and neither depends on what the slot held before. *)
Theorem shown_is_served (U : Unicode) (E : Engine) (svm : svgMap)
    (r r0 : Request) :
  Method r = "POST"%string ->
  exists data : mapData,
    snd (value (mapDisplay U E svm r)) =
      Page ("Preview map for " ++ FormValue r "taxon") data
    /\ SVGmap data = svgMap' (fst (value (mapDisplay U E svm r)))
    /\ Body (value (mapAsFile (fst (value (mapDisplay U E svm r))) r0)) =
         (if String.eqb (SVGmap data) "" then "There is no map in memory"
          else SVGmap data)
    /\ mapDisplay U E svm r = mapDisplay U E new_svgMap r.
Proof.
  intros HP.
  rewrite (@mapDisplay_POST U E svm r HP),
          (@mapDisplay_POST U E new_svgMap r HP).
  cbn -[mapSVG newMapData stored mapAsFile].
  exists (set_SVGmap (value (mapSVG U E (newMapData U r))) (newMapData U r)).
  split; [reflexivity | ]. split; [reflexivity | ].
  split; [ | reflexivity].
  rewrite mapAsFile_value. cbn -[mapSVG newMapData].
  destruct (String.eqb (value (mapSVG U E (newMapData U r))) ""); reflexivity.
Qed.

Lemma shown_is_served_witness :
  let r := Sample.post "Acacia dealbata" "web" "-42.1,147.4,1" in
  Method r = "POST"%string
  /\ (forall U svm,
         exists data : mapData,
           snd (value (mapDisplay U Sample.engine svm r)) =
             Page ("Preview map for " ++ FormValue r "taxon") data
           /\ SVGmap data =
                svgMap' (fst (value (mapDisplay U Sample.engine svm r)))
           /\ Body (value (mapAsFile
                             (fst (value (mapDisplay U Sample.engine svm r)))
                             Sample.get)) =
                (if String.eqb (SVGmap data) ""
                 then "There is no map in memory" else SVGmap data)
           /\ mapDisplay U Sample.engine svm r =
                mapDisplay U Sample.engine new_svgMap r).
Proof.
  intros r. split; [reflexivity | ].
  intros U svm.
  exact (@shown_is_served U Sample.engine svm r Sample.get eq_refl).
Defined.

Lemma length_mapBytes (f : ascii -> ascii) (s : string) :
  String.length (mapBytes f s) = String.length s.
Proof. induction s as [ | c s IH]; [reflexivity | simpl; now rewrite IH]. Qed.

Lemma hyphen_lower_clean (c : ascii) :
  hyphen (lowerByte c) <> " "%char /\ isUpper (hyphen (lowerByte c)) = false.
Proof.
  destruct c as [[] [] [] [] [] [] [] []]; split;
    solve [discriminate | reflexivity].
Qed.

Lemma mapBytes_clean (s : string) :
  Forall (fun c => c <> " "%char /\ isUpper c = false)
    (chars (mapBytes hyphen (mapBytes lowerByte s))).
Proof.
  induction s as [ | c s IH]; [constructor | ].
  simpl. constructor; [apply hyphen_lower_clean | exact IH].
Qed.

(** X9.  For a taxon name of ASCII bytes, the name stored by a form
    submission is a base of the same length as the taxon name, with no space
    and no capital letter in it, followed by a dot, the map style as it was
    sent, and [.svg]. *)
Theorem name_of_ascii_taxon (U : Unicode) (E : Engine) (svm : svgMap)
    (r : Request) :
  Method r = "POST"%string ->
  isASCII (FormValue r "taxon") = true ->
  exists base : string,
    mapName (fst (value (mapDisplay U E svm r))) =
      (base ++ "." ++ FormValue r "maptype" ++ ".svg")%string
    /\ String.length base = String.length (FormValue r "taxon")
    /\ Forall (fun c => c <> " "%char /\ isUpper c = false) (chars base).
Proof.
  intros HP HA. rewrite (@mapDisplay_POST U E svm r HP).
  exists (mapBytes hyphen (mapBytes lowerByte (FormValue r "taxon"))).
  cbn -[mapSVG newMapData mapBytes]. unfold fileName, ToLower. rewrite HA.
  split; [reflexivity | ].
  split; [now rewrite !length_mapBytes | apply mapBytes_clean].
Qed.

Lemma name_of_ascii_taxon_witness :
  let r := Sample.post "Eucalyptus Globulus subsp. X" "web" "-42.1,147.4" in
  Method r = "POST"%string
  /\ isASCII (FormValue r "taxon") = true
  /\ (forall U E svm,
         mapName (fst (value (mapDisplay U E svm r))) =
         "eucalyptus-globulus-subsp.-x.web.svg"%string)
  /\ (forall U E svm,
         exists base : string,
           mapName (fst (value (mapDisplay U E svm r))) =
             (base ++ "." ++ FormValue r "maptype" ++ ".svg")%string
           /\ String.length base = String.length (FormValue r "taxon")
           /\ Forall (fun c => c <> " "%char /\ isUpper c = false)
                (chars base)).
Proof.
  intros r. split; [reflexivity | ]. split; [reflexivity | ].
  split; [intros U E svm; reflexivity | ].
  intros U E svm. exact (@name_of_ascii_taxon U E svm r eq_refl eq_refl).
Defined.

(** X10.  With the handlers interleaved, two form submissions can leave
    the slot torn for good: when the first one writes its svg body after the
    second one has finished, the slot ends up with the second name and map
    type and the first svg body, and both handler calls have returned. *)
Theorem slot_torn_by_overlap (U : Unicode) (E : Engine) (r1 r2 : Request) :
  Method r1 = "POST"%string ->
  Method r2 = "POST"%string ->
  let final := exec U E [0; 0; 0; 1; 1; 1; 1; 1; 0; 0] new_svgMap
                 (map (spawn U) [map_ r1; map_ r2]) in
  fst final =
    {| mapName := mapName (stored U E r2);
       mapType := mapType (stored U E r2);
       svgMap' := svgMap' (stored U E r1) |}
  /\ exists a1 a2, snd final = [Done a1; Done a2].
Proof.
  intros H1 H2. unfold spawn, map. rewrite H1, H2.
  unfold stored, fileName. rewrite <- !ReplaceAll_space_hyphen.
  cbn -[mapSVG newMapData ToLower ReplaceAll].
  split; [reflexivity | eauto].
Qed.

Lemma slot_torn_by_overlap_witness :
  let r1 := Sample.post "Acacia dealbata" "grid" "-42.1,147.4" in
  let r2 := Sample.post "Banksia" "plain" "-41.3,145.4" in
  Method r1 = "POST"%string /\ Method r2 = "POST"%string
  /\ (forall U,
         fst (exec U Sample.engine [0; 0; 0; 1; 1; 1; 1; 1; 0; 0] new_svgMap
                (map (spawn U) [map_ r1; map_ r2])) =
         {| mapName := "banksia.plain.svg"; mapType := "plain";
            svgMap' := "<svg>grid</svg>" |}).
Proof.
  intros r1 r2. split; [reflexivity | ]. split; [reflexivity | ].
  intros U.
  exact (proj1 (@slot_torn_by_overlap U Sample.engine r1 r2 eq_refl eq_refl)).
Defined.

End HandlerFacts.

(** ** The pages *)

Module PageFacts.

Import Strings Mapper Effects Main Pages.
Local Open Scope list_scope.

Lemma sapp_assoc (a b c : string) : ((a ++ b) ++ c = a ++ b ++ c)%string.
Proof. induction a as [ | x a IH]; [reflexivity | simpl; now rewrite IH]. Qed.

Lemma sapp_nil_r (a : string) : (a ++ "" = a)%string.
Proof. induction a as [ | x a IH]; [reflexivity | simpl; now rewrite IH]. Qed.

Lemma extend_extend (w : Writer) (t1 t2 : string) (l1 l2 : list event) :
  extend (extend w t1 l1) t2 l2 = extend w (t1 ++ t2)%string (l1 ++ l2).
Proof. unfold extend. cbn. now rewrite sapp_assoc, app_assoc. Qed.

Lemma extend_nothing (w : Writer) : extend w "" [] = w.
Proof. destruct w. unfold extend. cbn. now rewrite sapp_nil_r, app_nil_r. Qed.

Lemma parsingError_failed (filename : string) (w : Writer) :
  plainName filename ->
  parsingError true filename w =
  (Some tt, extend w (errorBlock filename) [errorLine filename]).
Proof.
  intros Hf. unfold parsingError, hbind, Fprint, errorLog_Printf, extend.
  cbn -[append endsWithLF]. unfold plainName in Hf. now rewrite Hf.
Qed.

(** One template of [mapDisplay]: executed if it parsed, reported if not. *)
Lemma guarded_step (t : option Template) (a : arg) (filename : string)
    (w : Writer) :
  plainName filename ->
  (if failed t then parsingError (failed t) filename else Execute t a) w =
  (Some tt, extend w (shownBlock t a filename) (shownLog t filename)).
Proof.
  intros Hf. destruct t as [f | ]; cbn -[parsingError].
  - unfold Fprint, extend. cbn. now rewrite app_nil_r.
  - now apply parsingError_failed.
Qed.

(** One template of [dataEntry] or [style]: reported if it did not parse,
    and executed all the same. *)
Lemma unguarded_step (t : option Template) (a : arg) (filename : string)
    (w : Writer) :
  plainName filename ->
  hbind (parsingError (failed t) filename) (fun _ => Execute t a) w =
  match t with
  | Some f => (Some tt, extend w (f a) [])
  | None => (None, extend w (errorBlock filename) [errorLine filename])
  end.
Proof.
  intros Hf. destruct t as [f | ]; unfold hbind; cbn -[parsingError].
  - unfold Fprint, extend. cbn. now rewrite app_nil_r.
  - now rewrite parsingError_failed.
Qed.

(** X11.  The page of a form submission is always written to the end:
    whichever templates fail to parse, the handler does not panic, the body
    grows by the four blocks in the order head, header, svg, footer, each the
    output of its template or else the error block naming its file, the log
    grows by one line per template that failed, and the header stays as it
    was. *)
Theorem mapDisplay_page_complete (A : Assets) (pageTitle : string)
    (data : mapData) (w : Writer) :
  mapDisplay_page A pageTitle data w =
  (Some tt,
   extend w
     (shownBlock (htmt_ParseFiles A "assets/head.html")
        (ArgString pageTitle) "head.html"
      ++ shownBlock (htmt_ParseFiles A "assets/header.html")
           (ArgData data) "header.html"
      ++ shownBlock (text_ParseFiles A "assets/svg.html")
           (ArgData data) "svg.html"
      ++ shownBlock (htmt_ParseFiles A "assets/footer.html")
           (ArgData data) "footer.html")%string
     (shownLog (htmt_ParseFiles A "assets/head.html") "head.html"
      ++ shownLog (htmt_ParseFiles A "assets/header.html") "header.html"
      ++ shownLog (text_ParseFiles A "assets/svg.html") "svg.html"
      ++ shownLog (htmt_ParseFiles A "assets/footer.html") "footer.html")).
Proof.
  unfold mapDisplay_page.
  unfold hbind at 1. rewrite guarded_step by reflexivity.
  unfold hbind at 1. rewrite guarded_step by reflexivity.
  unfold hbind at 1. rewrite guarded_step by reflexivity.
  rewrite guarded_step by reflexivity.
  now rewrite !extend_extend.
Qed.

Lemma dataEntry_unguarded (A : Assets) (r : Request) (w : Writer) :
  Method r = "GET"%string ->
  dataEntry A r w =
  let '(text, lines, stopped) := unguarded (entryTemplates A) in
  (if stopped then None else Some tt, extend w text lines).
Proof.
  intros HG. unfold dataEntry. rewrite HG. cbn [String.eqb Ascii.eqb Bool.eqb].
  unfold entryTemplates, unguarded, pageText at 1, index.
  cbn [String.eqb Ascii.eqb Bool.eqb].
  change (fun _ : unit => ?k) with (fun _ : unit => k).
  set (head := htmt_ParseFiles A "assets/head.html").
  set (header := htmt_ParseFiles A "assets/header.html").
  set (body := htmt_ParseFiles A "assets/dataEntry.html").
  set (footer := htmt_ParseFiles A "assets/footer.html").
  assert (Hstep : forall t a f (k : H unit) w0,
             plainName f ->
             hbind (parsingError (failed t) f)
               (fun _ => hbind (Execute t a) (fun _ => k)) w0 =
             match t with
             | Some g => k (extend w0 (g a) [])
             | None => (None, extend w0 (errorBlock f) [errorLine f])
             end).
  { intros t a f k w0 Hf. destruct t as [g | ]; unfold hbind.
    - cbn. unfold extend. now rewrite app_nil_r.
    - cbn -[parsingError]. now rewrite parsingError_failed. }
  rewrite Hstep by reflexivity. destruct head as [h | ]; [ | reflexivity].
  rewrite Hstep by reflexivity. destruct header as [hd | ].
  2:{ rewrite ?extend_extend, ?sapp_assoc, ?sapp_nil_r. reflexivity. }
  rewrite Hstep by reflexivity. destruct body as [b | ].
  2:{ rewrite ?extend_extend, ?sapp_assoc, ?sapp_nil_r. reflexivity. }
  rewrite (@unguarded_step footer ArgNil "footer.html" _ eq_refl).
  destruct footer as [f | ];
    rewrite ?extend_extend, ?sapp_assoc, ?sapp_nil_r; reflexivity.
Qed.



(** X12.  When the four template files parse, [dataEntry] answers a [GET]
    with the four outputs in the order head, header, form, footer, logs
    nothing and does not touch the header; any other method gets nothing at
    all: no body, no log line. *)
Theorem dataEntry_serves_form (A : Assets) (r : Request) (w : Writer)
    (head header form footer : Template) :
  htmt_ParseFiles A "assets/head.html" = Some head ->
  htmt_ParseFiles A "assets/header.html" = Some header ->
  htmt_ParseFiles A "assets/dataEntry.html" = Some form ->
  htmt_ParseFiles A "assets/footer.html" = Some footer ->
  dataEntry A r w =
  if String.eqb (Method r) "GET" then
    (Some tt,
     extend w
       (head (ArgString "Data entry form") ++ header ArgNil
        ++ form (ArgMap pageText) ++ footer ArgNil)%string [])
  else (Some tt, w).
Proof.
  intros H1 H2 H3 H4.
  destruct (String.eqb_spec (Method r) "GET") as [HG | HG].
  - rewrite (@dataEntry_unguarded A r w HG). unfold entryTemplates.
    rewrite H1, H2, H3, H4. cbn. now rewrite sapp_nil_r.
  - unfold dataEntry.
    destruct (String.eqb_spec (Method r) "GET"); [contradiction | reflexivity].
Qed.

Lemma dataEntry_serves_form_witness :
  dataEntry SamplePages.assets Sample.get SamplePages.blank =
    (Some tt,
     {| header := [];
        body := "[assets/head.html][assets/header.html][assets/dataEntry.html][assets/footer.html]";
        logged := [] |})
  /\ dataEntry SamplePages.assets (Sample.post "" "" "") SamplePages.blank =
       (Some tt, SamplePages.blank).
Proof.
  split.
  - exact (@dataEntry_serves_form SamplePages.assets Sample.get
             SamplePages.blank _ _ _ _ eq_refl eq_refl eq_refl eq_refl).
  - exact (@dataEntry_serves_form SamplePages.assets (Sample.post "" "" "")
             SamplePages.blank _ _ _ _ eq_refl eq_refl eq_refl eq_refl).
Defined.



(** X14.  [style] sets [Content-Type: text/css] before anything else and
    for every request method.  When the style sheet parses, its output is
    the body and nothing is logged; when it does not, the error block is
    written under that content type, one line is logged, and the handler
    panics on executing the missing template. *)
Theorem style_answer (A : Assets) (r : Request) (w : Writer) :
  style A r w =
  let typed := ("Content-Type", "text/css")%string
               :: filter (fun kv => negb (String.eqb (fst kv) "Content-Type"))
                    (header w) in
  match htmt_ParseFiles A "assets/style.css" with
  | Some css =>
      (Some tt,
       {| header := typed; body := (body w ++ css ArgNil)%string;
          logged := logged w |})
  | None =>
      (None,
       {| header := typed;
          body := (body w ++ errorBlock "style.css")%string;
          logged := logged w ++ [errorLine "style.css"] |})
  end.
Proof.
  unfold style. unfold hbind at 1. cbn [Header_Set].
  rewrite (@unguarded_step _ ArgNil "style.css" _ eq_refl).
  destruct (htmt_ParseFiles A "assets/style.css") as [css | ];
    unfold extend; cbn [header body logged]; now rewrite ?app_nil_r.
Qed.

End PageFacts.
